(** * LS-8 emulator: a shallow embedding of [ls8/cpu.py]

    The emulator is a Python class [CPU] holding a 256-cell memory, eight
    registers (register 7 doubles as the stack pointer), a program counter
    and a dispatch table from opcode to handler.  Python integers are
    unbounded, so every cell, register and the program counter is a [Z];
    the places where the source masks with [0xff] are written out.  Python
    exceptions are values of type [exn]; a computation that raises returns
    the exception together with the state as mutated so far. *)

From Stdlib Require Import ZArith String Ascii List Bool Lia.
From stdpp Require Import base option list gmap.

Local Open Scope Z_scope.

(** ** Instruction set (module-level constants of the source) *)

(** Python's binary literals [0b...], read most significant bit first. *)
Fixpoint binary_literal (digits : string) (acc : Z) : Z :=
  match digits with
  | EmptyString => acc
  | String c rest =>
      binary_literal rest (2 * acc + (if Ascii.eqb c "1" then 1 else 0))
  end.
Definition bin (digits : string) : Z := binary_literal digits 0.

Definition ADD  : Z := Eval cbv in bin "10100000".
Definition AND  : Z := Eval cbv in bin "10101000".
Definition CALL : Z := Eval cbv in bin "01010000".
Definition CMP  : Z := Eval cbv in bin "10100111".
Definition DEC  : Z := Eval cbv in bin "01100110".
Definition DIV  : Z := Eval cbv in bin "10100011".
Definition HLT  : Z := Eval cbv in bin "00000001".
Definition INC  : Z := Eval cbv in bin "01100101".
Definition INT  : Z := Eval cbv in bin "01010010".
Definition IRET : Z := Eval cbv in bin "00010011".
Definition JEQ  : Z := Eval cbv in bin "01010101".
Definition JGE  : Z := Eval cbv in bin "01011010".
Definition JGT  : Z := Eval cbv in bin "01010111".
Definition JLE  : Z := Eval cbv in bin "01011001".
Definition JLT  : Z := Eval cbv in bin "01011000".
Definition JMP  : Z := Eval cbv in bin "01010100".
Definition JNE  : Z := Eval cbv in bin "01010110".
Definition LD   : Z := Eval cbv in bin "10000011".
Definition LDI  : Z := Eval cbv in bin "10000010".
Definition MOD  : Z := Eval cbv in bin "10100100".
Definition MUL  : Z := Eval cbv in bin "10100010".
Definition NOP  : Z := Eval cbv in bin "00000000".
Definition NOT  : Z := Eval cbv in bin "01101001".
Definition OR   : Z := Eval cbv in bin "10101010".
Definition POP  : Z := Eval cbv in bin "01000110".
Definition PRA  : Z := Eval cbv in bin "01001000".
Definition PRN  : Z := Eval cbv in bin "01000111".
Definition PUSH : Z := Eval cbv in bin "01000101".
Definition RET  : Z := Eval cbv in bin "00010001".
Definition SHL  : Z := Eval cbv in bin "10101100".
Definition SHR  : Z := Eval cbv in bin "10101101".
Definition ST   : Z := Eval cbv in bin "10000100".
Definition SUB  : Z := Eval cbv in bin "10100001".
Definition XOR  : Z := Eval cbv in bin "10101011".

Definition OPERANDS_OFFSET : Z := 6.
Definition ALU_OFFSET : Z := 5.
Definition PC_OFFSET : Z := 4.

Definition OPERANDS_MASK : Z := Eval cbv in bin "11000000".
Definition ALU_MASK      : Z := Eval cbv in bin "00100000".
Definition PC_MASK       : Z := Eval cbv in bin "00010000".
Definition ID_MASK       : Z := Eval cbv in bin "00001111".

(** ** Python values the model needs *)

(** The exceptions the code can raise, by their Python class. *)
Inductive exn : Type :=
  | SystemExit
  | KeyError (key : Z)
  | IndexError
  | TypeError
  | ZeroDivisionError
  | ValueError (msg : string)
  | OverflowError
  | MemoryError
  | Exception (msg : string).

(** Why the interpreter may refuse to build [x << y] for a count [y] that
    is not negative: the result would have more digits than an integer may
    have ([OverflowError]), or more than there is memory for
    ([MemoryError]). *)
Inductive shift_error : Type :=
  | TooManyDigits
  | OutOfMemory.

Definition shift_exn (e : shift_error) : exn :=
  match e with
  | TooManyDigits => OverflowError
  | OutOfMemory => MemoryError
  end.

(** The interpreter and the machine the emulator runs on.  Which left
    shifts they refuse is not decided by the program: [shift_refused x y]
    is [None] when [x << y] is built, and the reason when it is not. *)
Class Host : Type := shift_refused : Z → Z → option shift_error.

(** What [print] wrote: an integer ([prn]) or a literal text. *)
Inductive printed : Type :=
  | PInt (n : Z)
  | PStr (s : string).

(** The names bound in the dispatch table: bound methods of the instance. *)
Inductive handler : Type :=
  | h_call | h_hlt | h_ldi | h_prn | h_pop | h_push | h_ret.

(** Truth value of a Python integer in [if x:] and [if not x:]. *)
Definition truthy (x : Z) : bool := negb (x =? 0).

(** Index of a Python list of length [n]: [0 .. n-1] as they are,
    [-n .. -1] counted from the end, anything else is an [IndexError]. *)
Definition py_index (n : nat) (i : Z) : option nat :=
  if (0 <=? i) && (i <? Z.of_nat n) then Some (Z.to_nat i)
  else if (- Z.of_nat n <=? i) && (i <? 0) then Some (Z.to_nat (Z.of_nat n + i))
  else None.

(** [l[i]] *)
Definition py_getitem (l : list Z) (i : Z) : option Z :=
  match py_index (length l) i with
  | Some k => l !! k
  | None => None
  end.

(** [l[i] = v] *)
Definition py_setitem (l : list Z) (i : Z) (v : Z) : option (list Z) :=
  match py_index (length l) i with
  | Some k => Some (<[k := v]> l)
  | None => None
  end.

(** ** The CPU object *)

Record cpu : Type := mkCPU {
  ram : list Z;
  reg : list Z;
  pc : Z;
  running : bool;
  dispatch_table : gmap Z handler;
  stdout : list printed
}.

Definition with_ram (m : list Z) (s : cpu) : cpu :=
  mkCPU m (reg s) (pc s) (running s) (dispatch_table s) (stdout s).
Definition with_reg (r : list Z) (s : cpu) : cpu :=
  mkCPU (ram s) r (pc s) (running s) (dispatch_table s) (stdout s).
Definition with_pc (p : Z) (s : cpu) : cpu :=
  mkCPU (ram s) (reg s) p (running s) (dispatch_table s) (stdout s).
Definition with_stdout (o : list printed) (s : cpu) : cpu :=
  mkCPU (ram s) (reg s) (pc s) (running s) (dispatch_table s) o.

(** ** Methods as state transformers that may raise *)

Inductive result (A : Type) : Type :=
  | Ok (v : A) (s : cpu)
  | Raise (e : exn) (s : cpu).
Arguments Ok {A} v s.
Arguments Raise {A} e s.

Definition M (A : Type) : Type := cpu → result A.

#[global] Instance M_ret : MRet M := λ A v s, Ok v s.
#[global] Instance M_bind : MBind M := λ A B f m s,
  match m s with
  | Ok v s' => f v s'
  | Raise e s' => Raise e s'
  end.

Definition raise {A} (e : exn) : M A := λ s, Raise e s.
Definition get_pc : M Z := λ s, Ok (pc s) s.
Definition set_pc (p : Z) : M unit := λ s, Ok tt (with_pc p s).
Definition print (x : printed) : M unit :=
  λ s, Ok tt (with_stdout (stdout s ++ [x]) s).

(** [self.reg[a]] *)
Definition reg_get (a : Z) : M Z := λ s,
  match py_getitem (reg s) a with
  | Some v => Ok v s
  | None => Raise IndexError s
  end.

(** [self.reg[b]] where [b] may be the default [None] of [alu] *)
Definition reg_get_opt (b : option Z) : M Z :=
  match b with
  | Some i => reg_get i
  | None => raise TypeError
  end.

(** [self.reg[a] = v] *)
Definition reg_set (a : Z) (v : Z) : M unit := λ s,
  match py_setitem (reg s) a v with
  | Some r => Ok tt (with_reg r s)
  | None => Raise IndexError s
  end.

(** [self.pc += n] *)
Definition pc_add (n : Z) : M unit := p ← get_pc; set_pc (p + n).

Module CPU.

(** property [stack_pointer]: the getter *)
Definition stack_pointer : M Z := reg_get 7.

(** property [stack_pointer]: the setter *)
Definition set_stack_pointer (value : Z) : M unit :=
  let value := Z.land value 0xff in
  reg_set 7 value.

Definition ram_read (address : Z) : M Z := λ s,
  match py_getitem (ram s) address with
  | Some v => Ok v s
  | None => Raise IndexError s
  end.

Definition ram_write (address : Z) (value : Z) : M unit := λ s,
  match py_setitem (ram s) address value with
  | Some m => Ok tt (with_ram m s)
  | None => Raise IndexError s
  end.

(** [alu(self, op, a, b = None)] *)
Definition alu {host : Host} (op : Z) (a : Z) (b : option Z) : M unit :=
  (if op =? ADD then
     x ← reg_get a; y ← reg_get_opt b; reg_set a (x + y)
   else if op =? AND then
     x ← reg_get a; y ← reg_get_opt b; reg_set a (Z.land x y)
   else if op =? CMP then
     mret tt
   else if op =? DEC then
     x ← reg_get a; reg_set a (x - 1)
   else if op =? DIV then
     y ← reg_get_opt b;
     (if y =? 0 then raise (ValueError "Cannot divide by 0") else mret tt);;
     x ← reg_get a; y ← reg_get_opt b; reg_set a (x / y)
   else if op =? INC then
     x ← reg_get a; reg_set a (x + 1)
   else if op =? MOD then
     x ← reg_get a; y ← reg_get_opt b;
     if y =? 0 then raise ZeroDivisionError else reg_set a (x mod y)
   else if op =? MUL then
     x ← reg_get a; y ← reg_get_opt b; reg_set a (x * y)
   else if op =? NOT then
     x ← reg_get a; reg_set a (Z.lnot x)
   else if op =? OR then
     x ← reg_get a; y ← reg_get_opt b; reg_set a (Z.lor x y)
   else if op =? SHL then
     x ← reg_get a; y ← reg_get_opt b;
     if y <? 0 then raise (ValueError "negative shift count")
     else match shift_refused x y with
          | Some e => raise (shift_exn e)
          | None => reg_set a (Z.shiftl x y)
          end
   else if op =? SHR then
     x ← reg_get a; y ← reg_get_opt b;
     if y <? 0 then raise (ValueError "negative shift count")
     else reg_set a (Z.shiftr x y)
   else if op =? SUB then
     x ← reg_get a; y ← reg_get_opt b; reg_set a (x - y)
   else if op =? XOR then
     x ← reg_get a; y ← reg_get_opt b; reg_set a (Z.lxor x y)
   else
     raise (Exception "Unsupported ALU Operation"));;
  x ← reg_get a; reg_set a (Z.land x 0xff).

(** [sys.exit()] raises [SystemExit] *)
Definition hlt : M unit := raise SystemExit.

Definition call (a : Z) : M unit :=
  sp ← stack_pointer; set_stack_pointer (sp - 1);;
  sp ← stack_pointer; p ← get_pc; ram_write sp (p + 2);;
  x ← reg_get a; set_pc x.

Definition ldi (a : Z) (value : Z) : M unit := reg_set a value.

Definition ret : M unit :=
  sp ← stack_pointer; x ← ram_read sp; set_pc x;;
  sp ← stack_pointer; set_stack_pointer (sp + 1).

Definition pop (a : Z) : M unit :=
  sp ← stack_pointer; x ← ram_read sp; reg_set a x;;
  sp ← stack_pointer; set_stack_pointer (sp + 1).

Definition prn (a : Z) : M unit := x ← reg_get a; print (PInt x).

Definition push (a : Z) : M unit :=
  sp ← stack_pointer; set_stack_pointer (sp - 1);;
  sp ← stack_pointer; x ← reg_get a; ram_write sp x.

End CPU.

(** ** Construction *)

Definition configure_dispatch_table : gmap Z handler :=
  <[RET := h_ret]> (<[PUSH := h_push]> (<[POP := h_pop]> (<[PRN := h_prn]>
  (<[LDI := h_ldi]> (<[HLT := h_hlt]> (<[CALL := h_call]> ∅)))))).

(** [__init__]: zeroed memory and registers, [pc = 0], the stack pointer set
    through its setter, the dispatch table filled. *)
Definition init : cpu :=
  mkCPU (replicate 256 0) (<[7%nat := Z.land 0xF7 0xff]> (replicate 8 0))
        0 true configure_dispatch_table [].

(** ** The loader *)

(** [line.split('#', 1)[0]]: the text before the first [#]. *)
Fixpoint before_hash (line : string) : string :=
  match line with
  | EmptyString => EmptyString
  | String c rest =>
      if Ascii.eqb c "#" then EmptyString else String c (before_hash rest)
  end.

(** Python's built-in [int(text, 2)] on ASCII text: surrounding whitespace
    is dropped, then an optional sign, an optional [0b]/[0B] prefix (one
    underscore may follow it), then binary digits with single underscores
    between them.  [None] stands for [ValueError].  White space is what C's
    [isspace] accepts: tab, line feed, vertical tab, form feed, carriage
    return and the space. *)
Definition is_space (c : ascii) : bool :=
  let n := N_of_ascii c in
  ((9 <=? n) && (n <=? 13) || (n =? 32))%N.

Fixpoint lstrip (t : string) : string :=
  match t with
  | String c rest => if is_space c then lstrip rest else t
  | EmptyString => EmptyString
  end.

Fixpoint all_space (t : string) : bool :=
  match t with
  | String c rest => is_space c && all_space rest
  | EmptyString => true
  end.

(** Digits after the first one: [prev_us] tells that the previous character
    was an underscore. *)
Fixpoint int2_digits (t : string) (prev_us : bool) (acc : Z) : option Z :=
  match t with
  | EmptyString => if prev_us then None else Some acc
  | String c rest =>
      if Ascii.eqb c "0" then int2_digits rest false (2 * acc)
      else if Ascii.eqb c "1" then int2_digits rest false (2 * acc + 1)
      else if Ascii.eqb c "_" then
        if prev_us then None else int2_digits rest true acc
      else if prev_us then None
      else if all_space t then Some acc else None
  end.

Definition int2_unsigned (t : string) : option Z :=
  let t :=
    match t with
    | String "0" (String "b" (String "_" rest)) => rest
    | String "0" (String "B" (String "_" rest)) => rest
    | String "0" (String "b" rest) => rest
    | String "0" (String "B" rest) => rest
    | _ => t
    end in
  match t with
  | String "0" _ | String "1" _ => int2_digits t false 0
  | _ => None
  end.

Definition int2 (text : string) : option Z :=
  match lstrip text with
  | String "-" rest => Z.opp <$> int2_unsigned rest
  | String "+" rest => int2_unsigned rest
  | t => int2_unsigned t
  end.

Module Loader.

(** The [for line in program] loop of [load], with its [address] counter.
    Only [ValueError] is caught: a line that does not parse is skipped. *)
Fixpoint load_from (program : list string) (address : Z) : M unit :=
  match program with
  | [] => mret tt
  | line :: rest =>
      let line := before_hash line in
      match int2 line with
      | Some instruction =>
          CPU.ram_write address instruction;; load_from rest (address + 1)
      | None => load_from rest address
      end
  end.

(** [load(self, path)], given the lines of the file at [path]. *)
Definition load (program : list string) : M unit := load_from program 0.

End Loader.

(** ** The fetch-decode-execute loop *)

Definition num_operands (instruction_reg : Z) : Z :=
  Z.shiftr instruction_reg OPERANDS_OFFSET.

Definition is_alu_operation (instruction_reg : Z) : Z :=
  Z.shiftr (Z.land instruction_reg ALU_MASK) ALU_OFFSET.

Definition sets_pc (instruction_reg : Z) : Z :=
  Z.shiftr (Z.land instruction_reg PC_MASK) PC_OFFSET.

(** [self.dispatch_table[opcode]] *)
Definition lookup_handler (opcode : Z) : M handler := λ s,
  match dispatch_table s !! opcode with
  | Some h => Ok h s
  | None => Raise (KeyError opcode) s
  end.

(** Calling a bound method with the operands fetched; a wrong number of
    arguments is Python's [TypeError]. *)
Definition invoke (h : handler) (args : list Z) : M unit :=
  match h, args with
  | h_call, [a] => CPU.call a
  | h_hlt, [] => CPU.hlt
  | h_ldi, [a; value] => CPU.ldi a value
  | h_prn, [a] => CPU.prn a
  | h_pop, [a] => CPU.pop a
  | h_push, [a] => CPU.push a
  | h_ret, [] => CPU.ret
  | _, _ => raise TypeError
  end.

(** One pass through the body of [while True:] in [run], from the decoding
    of [instruction_reg] to the fetch of the next instruction, which it
    returns. *)
Definition run_iteration {host : Host} (instruction_reg : Z) : M Z :=
  let num_operands := num_operands instruction_reg in
  let is_alu_operation := is_alu_operation instruction_reg in
  (if truthy is_alu_operation then
     if num_operands =? 1 then
       p ← get_pc; a ← CPU.ram_read (p + 1);
       CPU.alu instruction_reg a None;;
       pc_add 2
     else if num_operands =? 2 then
       p ← get_pc; a ← CPU.ram_read (p + 1);
       p ← get_pc; b ← CPU.ram_read (p + 2);
       CPU.alu instruction_reg a (Some b);;
       pc_add 3
     else print (PStr "Bad instruction")
   else if num_operands =? 0 then
     h ← lookup_handler instruction_reg;
     invoke h [];;
     pc_add 1
   else if num_operands =? 1 then
     h ← lookup_handler instruction_reg;
     p ← get_pc; a ← CPU.ram_read (p + 1);
     invoke h [a];;
     pc_add 2
   else if num_operands =? 2 then
     h ← lookup_handler instruction_reg;
     p ← get_pc; a ← CPU.ram_read (p + 1);
     p ← get_pc; b ← CPU.ram_read (p + 2);
     invoke h [a; b];;
     pc_add 3
   else print (PStr "Bad instruction"));;
  let sets_pc := sets_pc instruction_reg in
  (if negb (truthy sets_pc) then pc_add (num_operands + 1) else mret tt);;
  p ← get_pc; CPU.ram_read p.

(** The state after [n] passes through the loop body, or the exception that
    stopped it earlier. *)
Fixpoint iterations {host : Host} (n : nat) (instruction_reg : Z) : M Z :=
  match n with
  | O => mret instruction_reg
  | S k => ir ← iterations k instruction_reg; run_iteration ir
  end.

(** [while True:] has no [break]: the loop ends only by an exception.
    [None] means the loop is still going after [fuel] passes. *)
Fixpoint run_loop {host : Host} (fuel : nat) (instruction_reg : Z) (s : cpu)
  : option (exn * cpu) :=
  match fuel with
  | O => None
  | S k =>
      match run_iteration instruction_reg s with
      | Ok ir s' => run_loop k ir s'
      | Raise e s' => Some (e, s')
      end
  end.

(** [run(self)]: the initial fetch, then the loop. *)
Definition run {host : Host} (fuel : nat) (s : cpu) : option (exn * cpu) :=
  match (p ← get_pc; CPU.ram_read p) s with
  | Ok ir s' => run_loop fuel ir s'
  | Raise e s' => Some (e, s')
  end.

(** The state a computation leaves behind, whether it returned or raised. *)
Definition final_state {A} (r : result A) : cpu :=
  match r with
  | Ok _ s => s
  | Raise _ s => s
  end.

(** A program image given as byte values, one line of eight binary digits
    each, as the loader expects it. *)
Fixpoint byte_digits (n : nat) (v : Z) (acc : string) : string :=
  match n with
  | O => acc
  | S k => byte_digits k (v / 2) (String (if Z.odd v then "1" else "0")%char acc)
  end.
Definition image (bytes : list Z) : list string :=
  map (λ v, byte_digits 8 v EmptyString) bytes.

(** ** Programs used as concrete inputs *)

(** Programs used as concrete inputs: each is loaded into a freshly
    constructed CPU. *)
Definition loaded (bytes : list Z) : cpu :=
  final_state (Loader.load (image bytes) init).

Definition hlt_only : cpu := loaded [HLT].
Definition ldi_only : cpu := loaded [LDI; 0; 8].
Definition call_only : cpu := loaded [CALL; 0].
Definition bad_only : cpu := loaded [bin "11000000"].

Definition div_by_zero : cpu := loaded [DIV; 0; 1].

(** A 256-byte program image, all of whose bytes are 8-bit values, that
    executes [CALL] with the program counter at 254: it sets the stack
    pointer to 28, calls address 252 (the loop adds 2: 254), and the
    [CALL] at 254 stores 254 + 2 in the cell at 26, which is the operand of
    the [LDI] at 24 that executes next. *)
Definition overflow_bytes : list Z :=
  [LDI; 7; 28; 0; 0; 0;
   LDI; 0; 252; 0; 0; 0;
   LDI; 1; 22; 0; 0; 0;
   CALL; 0; 0; 0; 0; 0;
   LDI; 2; 0] ++ replicate 227 0 ++ [CALL; 1].

(** The same image with the last [LDI] aimed at register 7: after six
    passes the stack pointer itself holds 256. *)
Definition sp_overflow_bytes : list Z :=
  [LDI; 7; 28; 0; 0; 0;
   LDI; 0; 252; 0; 0; 0;
   LDI; 1; 22; 0; 0; 0;
   CALL; 0; 0; 0; 0; 0;
   LDI; 7; 0] ++ replicate 227 0 ++ [CALL; 1].

(** A host for the concrete runs: it builds every shift of zero and every
    shift by fewer than 2^32 bits, lacks the memory for longer ones, and
    cannot count the digits from 2^63 bits on. *)
Definition example_host : Host := λ x y,
  if x =? 0 then None
  else if y <? 2 ^ 32 then None
  else if y <? 2 ^ 63 then Some OutOfMemory
  else Some TooManyDigits.

(** Characters that make a line blank: white space, and the four
    separator control characters that [str.isspace] also accepts. *)
Definition is_blank (c : ascii) : bool :=
  let n := N_of_ascii c in
  ((9 <=? n) && (n <=? 13) || (28 <=? n) && (n <=? 32))%N.

Fixpoint all_blank (t : string) : bool :=
  match t with
  | String c rest => is_blank c && all_blank rest
  | EmptyString => true
  end.

(** A fresh CPU with 200 in register 0 and 100 in register 1. *)
Definition two_registers : cpu :=
  with_reg (<[1%nat := 100]> (<[0%nat := 200]> (reg init))) init.

(** A program made of one byte with the ALU and sets-PC flags and no
    operand. *)
Definition stuck : cpu := loaded [bin "00110000"].

(** ** The states [run] goes through *)

(** [passes n]: the initial fetch of [run] and [n] passes of its loop. *)
Definition passes {host : Host} (n : nat) : M Z :=
  p ← get_pc; ir ← CPU.ram_read p; iterations n ir.

(** ** Triples for code that may raise

    [hoare P m Q E]: from a state satisfying [P], [m] either returns a
    value [v] in a state satisfying [Q v], or raises in a state satisfying
    [E]. *)

Definition hoare {A} (P : cpu → Prop) (m : M A)
    (Q : A → cpu → Prop) (E : cpu → Prop) : Prop :=
  ∀ s, P s → match m s with
             | Ok v s' => Q v s'
             | Raise _ s' => E s'
             end.

(** A computation that only reads: it returns or raises in the state it
    was started in, and [R s v] relates the value read to that state. *)
Definition reads {A} (m : M A) (R : cpu → A → Prop) : Prop :=
  ∀ s, match m s with
       | Ok v s' => s' = s ∧ R s v
       | Raise _ s' => s' = s
       end.

(** The branches of [alu] before the final mask read registers and then
    write register [a] at most once: the state is as before, or differs
    in that one register. *)
Definition wrote_reg (a : Z) (s0 s' : cpu) : Prop :=
  s' = s0 ∨ ∃ k v, py_index (length (reg s0)) a = Some k
                   ∧ s' = with_reg (<[k := v]> (reg s0)) s0.

(** ** Eight-bit values *)

Definition byte (v : Z) : Prop := 0 ≤ v ≤ 255.

#[global] Instance byte_dec v : Decision (byte v).
Proof. unfold byte. apply _. Defined.

(** Every memory cell and every register holds an 8-bit value, and the
    program counter satisfies [C]. *)
Definition inv (C : Z → Prop) (s : cpu) : Prop :=
  Forall byte (ram s) ∧ Forall byte (reg s) ∧ C (pc s).

Definition all_bytes : cpu → Prop := inv (λ _, True).

(** ** The trace printer *)

Definition hex_digit (d : Z) : ascii :=
  nth (Z.to_nat d)
    ["0"; "1"; "2"; "3"; "4"; "5"; "6"; "7";
     "8"; "9"; "A"; "B"; "C"; "D"; "E"; "F"]%char "0"%char.

Fixpoint hex_digits (fuel : nat) (n : Z) (acc : string) : string :=
  match fuel with
  | O => acc
  | S k =>
      let acc := String (hex_digit (n mod 16)) acc in
      if n / 16 =? 0 then acc else hex_digits k (n / 16) acc
  end.

(** Python's ['%02X' % n]: upper-case hexadecimal, a minus sign for a
    negative number, zeros on the left up to a width of 2. *)
Definition format_02X (n : Z) : string :=
  if n <? 0 then String "-" (hex_digits (S (Z.to_nat (Z.log2 (- n)))) (- n) "")
  else
    let h := hex_digits (S (Z.to_nat (Z.log2 n))) n "" in
    if (String.length h <? 2)%nat then String "0" h else h.

(** [for i in range(8): print(" %02X" % self.reg[i], end='')]: the text
    written so far, and the exception if a register is missing. *)
Fixpoint trace_registers (r : list Z) (i : Z) (n : nat) (text : string)
  : string * option exn :=
  match n with
  | O => (text, None)
  | S k =>
      match py_getitem r i with
      | Some v =>
          trace_registers r (i + 1) k
            (String.append text (String " " (format_02X v)))
      | None => (text, Some IndexError)
      end
  end.

(** [trace(self)]: the text it writes to standard output, and the
    exception that interrupted it, if any.  It changes nothing in the
    CPU. *)
Definition trace (s : cpu) : string * option exn :=
  match py_getitem (ram s) (pc s), py_getitem (ram s) (pc s + 1),
        py_getitem (ram s) (pc s + 2) with
  | Some m0, Some m1, Some m2 =>
      let head :=
        String.append "TRACE: "
          (String.append (format_02X (pc s))
             (String.append " | "
                (String.append (format_02X m0)
                   (String " "
                      (String.append (format_02X m1)
                         (String " "
                            (String.append (format_02X m2) " |"))))))) in
      match trace_registers (reg s) 0 8 head with
      | (text, None) => (String.append text (String "010" EmptyString), None)
      | (text, Some e) => (text, Some e)
      end
  | _, _, _ => (EmptyString, Some IndexError)
  end.

(** ** Shape of the state *)

(** The lists built by [__init__]: 256 memory cells and 8 registers. *)
Definition sized (s : cpu) : Prop :=
  length (ram s) = 256%nat ∧ length (reg s) = 8%nat.

(** Number of operands each handler takes besides [self], from its [def]. *)
Definition arity (h : handler) : nat :=
  match h with
  | h_hlt | h_ret => 0
  | h_call | h_prn | h_pop | h_push => 1
  | h_ldi => 2
  end.

(** The values the loader finds in a program text: each line cut at its
    first [#] and read as a binary number, the lines that do not parse left
    out. *)
Definition parsed (program : list string) : list Z :=
  omap (λ line, int2 (before_hash line)) program.

(** Everything below holds on any host. *)

Section OnAnyHost.

Context {host : Host}.

(** ** Python list indexing *)

Lemma py_index_Some n i k :
  py_index n i = Some k →
  (k < n)%nat ∧ (0 ≤ i < Z.of_nat n ∧ k = Z.to_nat i
                 ∨ - Z.of_nat n ≤ i < 0 ∧ k = Z.to_nat (Z.of_nat n + i)).
Proof.
  unfold py_index. intros H.
  destruct ((0 <=? i) && (i <? Z.of_nat n)) eqn:E1.
  - apply andb_true_iff in E1 as [?%Z.leb_le ?%Z.ltb_lt].
    injection H as <-. split; [lia | left; lia].
  - destruct ((- Z.of_nat n <=? i) && (i <? 0)) eqn:E2; [|discriminate].
    apply andb_true_iff in E2 as [?%Z.leb_le ?%Z.ltb_lt].
    injection H as <-. split; [lia | right; lia].
Qed.

Lemma py_index_None n i :
  py_index n i = None ↔ ¬ (- Z.of_nat n ≤ i < Z.of_nat n).
Proof.
  unfold py_index.
  destruct (0 <=? i) eqn:E1, (i <? Z.of_nat n) eqn:E2,
           (- Z.of_nat n <=? i) eqn:E3, (i <? 0) eqn:E4; simpl;
    try apply Z.leb_le in E1; try apply Z.leb_gt in E1;
    try apply Z.ltb_lt in E2; try apply Z.ltb_ge in E2;
    try apply Z.leb_le in E3; try apply Z.leb_gt in E3;
    try apply Z.ltb_lt in E4; try apply Z.ltb_ge in E4;
    split; intros; first [done | lia].
Qed.

Lemma py_index_nonneg n i :
  0 ≤ i < Z.of_nat n → py_index n i = Some (Z.to_nat i).
Proof.
  intros H. unfold py_index.
  destruct (0 <=? i) eqn:E1; [|apply Z.leb_gt in E1; lia].
  destruct (i <? Z.of_nat n) eqn:E2; [done|apply Z.ltb_ge in E2; lia].
Qed.

Lemma py_index_neg n i :
  - Z.of_nat n ≤ i < 0 → py_index n i = Some (Z.to_nat (Z.of_nat n + i)).
Proof.
  intros H. unfold py_index.
  destruct (0 <=? i) eqn:E1; [apply Z.leb_le in E1; lia|]. simpl.
  destruct (- Z.of_nat n <=? i) eqn:E3; [|apply Z.leb_gt in E3; lia].
  destruct (i <? 0) eqn:E4; [done|apply Z.ltb_ge in E4; lia].
Qed.

Lemma py_getitem_index l i k :
  py_index (length l) i = Some k → py_getitem l i = l !! k.
Proof. unfold py_getitem. by intros ->. Qed.

Lemma py_getitem_Some l i v :
  py_getitem l i = Some v →
  ∃ k, py_index (length l) i = Some k ∧ l !! k = Some v.
Proof.
  unfold py_getitem. destruct (py_index (length l) i) as [k|]; [|done].
  intros H. by exists k.
Qed.

Lemma py_setitem_index l i v k :
  py_index (length l) i = Some k → py_setitem l i v = Some (<[k := v]> l).
Proof. unfold py_setitem. by intros ->. Qed.

Lemma py_getitem_insert l i k v :
  py_index (length l) i = Some k → py_getitem (<[k := v]> l) i = Some v.
Proof.
  intros H. unfold py_getitem. rewrite length_insert, H.
  apply list_lookup_insert_eq. by apply py_index_Some in H as [H _].
Qed.

(** ** Running monadic code step by step *)

Lemma bind_Ok {A B} (m : M A) (f : A → M B) s v s' :
  m s = Ok v s' → (m ≫= f) s = f v s'.
Proof. unfold mbind, M_bind. by intros ->. Qed.

Lemma bind_Raise {A B} (m : M A) (f : A → M B) s e s' :
  m s = Raise e s' → (m ≫= f) s = Raise e s'.
Proof. unfold mbind, M_bind. by intros ->. Qed.

Lemma reg_get_Ok s a v : py_getitem (reg s) a = Some v → reg_get a s = Ok v s.
Proof. unfold reg_get. by intros ->. Qed.

Lemma reg_set_Ok s a v k :
  py_index (length (reg s)) a = Some k →
  reg_set a v s = Ok tt (with_reg (<[k := v]> (reg s)) s).
Proof. unfold reg_set. intros H. by rewrite (py_setitem_index _ _ _ _ H). Qed.

Lemma ram_read_Ok s a v :
  py_getitem (ram s) a = Some v → CPU.ram_read a s = Ok v s.
Proof. unfold CPU.ram_read. by intros ->. Qed.

Lemma ram_write_Ok s a v k :
  py_index (length (ram s)) a = Some k →
  CPU.ram_write a v s = Ok tt (with_ram (<[k := v]> (ram s)) s).
Proof. unfold CPU.ram_write. intros H. by rewrite (py_setitem_index _ _ _ _ H). Qed.

(** ** The first pass of [run] *)

Lemma run_first_raise s ir e s' fuel :
  py_getitem (ram s) (pc s) = Some ir →
  run_iteration ir s = Raise e s' →
  run (S fuel) s = Some (e, s').
Proof.
  intros Hf Hr. unfold run.
  rewrite (bind_Ok get_pc _ s (pc s) s) by reflexivity.
  rewrite (ram_read_Ok _ _ _ Hf). simpl. by rewrite Hr.
Qed.

Lemma run_iteration_hlt s :
  dispatch_table s !! HLT = Some h_hlt →
  run_iteration HLT s = Raise SystemExit s.
Proof.
  intros Ht. unfold run_iteration.
  change (truthy (is_alu_operation HLT)) with false.
  change (num_operands HLT =? 0) with true. cbv iota.
  apply bind_Raise.
  erewrite bind_Ok; [|unfold lookup_handler; by rewrite Ht].
  by apply bind_Raise.
Qed.

Lemma run_iteration_unregistered op s :
  truthy (is_alu_operation op) = false →
  0 ≤ num_operands op ≤ 2 →
  dispatch_table s !! op = None →
  run_iteration op s = Raise (KeyError op) s.
Proof.
  intros Halu Hle Hnone. unfold run_iteration. rewrite Halu.
  assert (Hl : lookup_handler op s = Raise (KeyError op) s).
  { unfold lookup_handler. by rewrite Hnone. }
  assert (Hc : num_operands op = 0 ∨ num_operands op = 1 ∨ num_operands op = 2)
    by lia.
  destruct Hc as [-> | [-> | ->]]; simpl;
    apply bind_Raise; by apply bind_Raise.
Qed.

(** ** Division and modulo by zero *)

Lemma alu_div_by_zero s a b :
  py_getitem (reg s) b = Some 0 →
  CPU.alu DIV a (Some b) s = Raise (ValueError "Cannot divide by 0") s.
Proof.
  intros Hb. unfold CPU.alu.
  change (DIV =? ADD) with false. change (DIV =? AND) with false.
  change (DIV =? CMP) with false. change (DIV =? DEC) with false.
  change (DIV =? DIV) with true. cbv iota.
  apply bind_Raise.
  rewrite (bind_Ok (reg_get_opt (Some b)) _ s 0 s) by by apply reg_get_Ok.
  by apply bind_Raise.
Qed.

Lemma alu_mod_by_zero s a b x :
  py_getitem (reg s) a = Some x →
  py_getitem (reg s) b = Some 0 →
  CPU.alu MOD a (Some b) s = Raise ZeroDivisionError s.
Proof.
  intros Ha Hb. unfold CPU.alu.
  change (MOD =? ADD) with false. change (MOD =? AND) with false.
  change (MOD =? CMP) with false. change (MOD =? DEC) with false.
  change (MOD =? DIV) with false. change (MOD =? INC) with false.
  change (MOD =? MOD) with true. cbv iota.
  apply bind_Raise.
  rewrite (bind_Ok (reg_get a) _ s x s) by by apply reg_get_Ok.
  rewrite (bind_Ok (reg_get_opt (Some b)) _ s 0 s) by by apply reg_get_Ok.
  reflexivity.
Qed.

(** The two-operand ALU branch of the loop body, up to the call of [alu]. *)
Lemma run_iteration_alu2_raise op s a b e s' :
  truthy (is_alu_operation op) = true →
  num_operands op = 2 →
  py_getitem (ram s) (pc s + 1) = Some a →
  py_getitem (ram s) (pc s + 2) = Some b →
  CPU.alu op a (Some b) s = Raise e s' →
  run_iteration op s = Raise e s'.
Proof.
  intros Halu Hn Ha Hb Hr. unfold run_iteration. rewrite Halu, Hn.
  change (2 =? 1) with false. change (2 =? 2) with true. cbv iota.
  apply bind_Raise.
  rewrite (bind_Ok get_pc _ s (pc s) s) by reflexivity.
  rewrite (bind_Ok (CPU.ram_read (pc s + 1)) _ s a s) by by apply ram_read_Ok.
  rewrite (bind_Ok get_pc _ s (pc s) s) by reflexivity.
  rewrite (bind_Ok (CPU.ram_read (pc s + 2)) _ s b s) by by apply ram_read_Ok.
  by apply bind_Raise.
Qed.

(** ** Decoding *)

Lemma shiftr_land_bit (b k : Z) :
  0 ≤ k → Z.shiftr (Z.land b (2 ^ k)) k = Z.b2z (Z.testbit b k).
Proof.
  intros Hk. apply Z.bits_inj'. intros n Hn.
  rewrite Z.shiftr_spec, Z.land_spec, Z.pow2_bits_eqb by lia.
  destruct (Z.eq_dec n 0) as [->|Hne].
  - rewrite Z.b2z_bit0, Z.add_0_l, Z.eqb_refl. apply andb_true_r.
  - replace (k =? n + k) with false by (symmetry; apply Z.eqb_neq; lia).
    rewrite andb_false_r. symmetry.
    destruct (Z.testbit b k); simpl.
    + apply (Z.bits_above_log2 1 n); simpl; lia.
    + apply Z.bits_0.
Qed.

Lemma num_operands_top_bits b :
  0 ≤ b ≤ 255 →
  num_operands b = 2 * Z.b2z (Z.testbit b 7) + Z.b2z (Z.testbit b 6).
Proof.
  intros Hb. unfold num_operands, OPERANDS_OFFSET.
  rewrite !Z.testbit_odd.
  replace (Z.shiftr b 7) with (Z.shiftr (Z.shiftr b 6) 1)
    by (rewrite Z.shiftr_shiftr by lia; reflexivity).
  assert (Hq : 0 ≤ Z.shiftr b 6 ≤ 3).
  { rewrite Z.shiftr_div_pow2 by lia. change (2 ^ 6) with 64.
    assert (b / 64 < 4) by (apply Z.div_lt_upper_bound; lia).
    assert (0 ≤ b / 64) by (apply Z.div_pos; lia). lia. }
  assert (Hc : Z.shiftr b 6 = 0 ∨ Z.shiftr b 6 = 1 ∨ Z.shiftr b 6 = 2
               ∨ Z.shiftr b 6 = 3) by lia.
  destruct Hc as [-> | [-> | [-> | ->]]]; reflexivity.
Qed.

(** ** The stack *)

Lemma land_255_mod (x : Z) : Z.land x 0xff = x mod 256.
Proof. change 0xff with (Z.ones 8). by rewrite Z.land_ones. Qed.

Lemma land_255_range (x : Z) : 0 ≤ Z.land x 0xff ≤ 255.
Proof. rewrite land_255_mod. pose proof (Z.mod_pos_bound x 256). lia. Qed.

(** One step down and one step up, or the reverse, bring the stack pointer
    back to its value modulo 256. *)
Lemma sp_down_up_mod (sp : Z) :
  Z.land (Z.land (sp - 1) 0xff + 1) 0xff = sp mod 256.
Proof.
  rewrite !land_255_mod, Z.add_mod_idemp_l by lia.
  by replace (sp - 1 + 1) with sp by lia.
Qed.

Lemma sp_up_down_mod (sp : Z) :
  Z.land (Z.land (sp + 1) 0xff - 1) 0xff = sp mod 256.
Proof.
  rewrite !land_255_mod, Zminus_mod_idemp_l.
  by replace (sp + 1 - 1) with sp by lia.
Qed.

Lemma sp_down_up (sp : Z) :
  0 ≤ sp ≤ 255 → Z.land (Z.land (sp - 1) 0xff + 1) 0xff = sp.
Proof. intros H. rewrite sp_down_up_mod. apply Z.mod_small. lia. Qed.

Lemma py_index_reg7 (r : list Z) :
  length r = 8%nat → py_index (length r) 7 = Some 7%nat.
Proof. by intros ->. Qed.

Lemma py_index_byte (m : list Z) (x : Z) :
  length m = 256%nat → 0 ≤ x ≤ 255 →
  py_index (length m) x = Some (Z.to_nat x).
Proof.
  intros -> H. apply py_index_nonneg. change (Z.of_nat 256) with 256. lia.
Qed.

Lemma py_index_register (r : list Z) (a : Z) :
  length r = 8%nat → -8 ≤ a < 8 →
  ∃ k, py_index (length r) a = Some k ∧ (k < 8)%nat
       ∧ (k = 7%nat ↔ a = 7 ∨ a = -1).
Proof.
  intros -> H. destruct (Z_lt_le_dec a 0) as [Hn|Hp].
  - exists (Z.to_nat (Z.of_nat 8 + a)).
    rewrite py_index_neg by (change (Z.of_nat 8) with 8; lia).
    change (Z.of_nat 8) with 8. split; [done|]. lia.
  - exists (Z.to_nat a).
    rewrite py_index_nonneg by (change (Z.of_nat 8) with 8; lia).
    split; [done|]. lia.
Qed.

(** What [push] does on a state with a well-formed stack pointer. *)
Lemma push_Ok s a sp ka x :
  length (ram s) = 256%nat → length (reg s) = 8%nat →
  reg s !! 7%nat = Some sp →
  py_index 8 a = Some ka →
  <[7%nat := Z.land (sp - 1) 0xff]> (reg s) !! ka = Some x →
  CPU.push a s
  = Ok tt (with_ram (<[Z.to_nat (Z.land (sp - 1) 0xff) := x]> (ram s))
            (with_reg (<[7%nat := Z.land (sp - 1) 0xff]> (reg s)) s)).
Proof.
  intros Hm Hr Hsp Ha Hx. unfold CPU.push, CPU.stack_pointer, CPU.set_stack_pointer.
  pose proof (py_index_reg7 _ Hr) as H7.
  rewrite (bind_Ok (reg_get 7) _ s sp s)
    by (apply reg_get_Ok; by rewrite (py_getitem_index _ _ _ H7)).
  erewrite bind_Ok; [|by apply reg_set_Ok].
  set (s1 := with_reg _ s).
  assert (Hr1 : length (reg s1) = 8%nat) by (simpl; by rewrite length_insert).
  rewrite (bind_Ok (reg_get 7) _ s1 (Z.land (sp - 1) 0xff) s1).
  2:{ apply reg_get_Ok. rewrite (py_getitem_index _ _ _ (py_index_reg7 _ Hr1)).
      simpl. apply list_lookup_insert_eq. lia. }
  rewrite (bind_Ok (reg_get a) _ s1 x s1).
  2:{ apply reg_get_Ok. unfold py_getitem. by rewrite Hr1, Ha. }
  erewrite ram_write_Ok; [reflexivity|].
  simpl. apply py_index_byte; [done | apply land_255_range].
Qed.

(** The cell a stack pointer designates: [ram[sp]] is Python indexing, so
    a stack pointer from -256 to -1 counts from the end of memory, and any
    other value outside 0..255 is not a valid index. *)
Lemma py_getitem_ram_None (m : list Z) (sp : Z) :
  length m = 256%nat → py_getitem m sp = None ↔ ¬ (-256 ≤ sp ≤ 255).
Proof.
  intros Hm. unfold py_getitem. rewrite Hm. split.
  - destruct (py_index 256 sp) as [k|] eqn:E.
    + intros Hk. apply py_index_Some in E as [Hlt _].
      apply lookup_ge_None in Hk. lia.
    + intros _. apply py_index_None in E. change (Z.of_nat 256) with 256 in E. lia.
  - intros Hsp.
    assert (E : py_index 256 sp = None)
      by (apply py_index_None; change (Z.of_nat 256) with 256; lia).
    by rewrite E.
Qed.

Lemma py_index_cell (sp : Z) (k : nat) :
  py_index 256 sp = Some k → k = Z.to_nat (sp mod 256).
Proof.
  intros H. apply py_index_Some in H as [_ H].
  change (Z.of_nat 256) with 256 in H.
  destruct H as [[H ->]|[H ->]].
  - by rewrite Z.mod_small by lia.
  - f_equal. apply (Z.mod_unique sp 256 (-1)); lia.
Qed.

Lemma py_getitem_at_byte (m : list Z) (sp : Z) :
  length m = 256%nat → 0 ≤ sp ≤ 255 → py_getitem m sp = m !! Z.to_nat sp.
Proof. intros Hm H. by rewrite (py_getitem_index _ _ _ (py_index_byte _ _ Hm H)). Qed.

(** What [pop] does when the stack pointer is [sp] and the cell it
    designates holds [x]. *)
Lemma pop_any s b sp kb x :
  length (reg s) = 8%nat →
  reg s !! 7%nat = Some sp →
  py_getitem (ram s) sp = Some x →
  py_index 8 b = Some kb →
  ∃ sp', <[kb := x]> (reg s) !! 7%nat = Some sp'
  ∧ CPU.pop b s
    = Ok tt (with_reg (<[7%nat := Z.land (sp' + 1) 0xff]> (<[kb := x]> (reg s))) s).
Proof.
  intros Hr Hsp Hx Hb.
  assert (Hlt : (7 < length (<[kb := x]> (reg s)))%nat)
    by (rewrite length_insert; lia).
  apply lookup_lt_is_Some_2 in Hlt as [sp' Hsp'].
  exists sp'. split; [done|].
  unfold CPU.pop, CPU.stack_pointer, CPU.set_stack_pointer.
  pose proof (py_index_reg7 _ Hr) as H7.
  rewrite (bind_Ok (reg_get 7) _ s sp s)
    by (apply reg_get_Ok; by rewrite (py_getitem_index _ _ _ H7)).
  rewrite (bind_Ok (CPU.ram_read sp) _ s x s) by by apply ram_read_Ok.
  erewrite bind_Ok; [|apply reg_set_Ok; by rewrite Hr].
  set (s1 := with_reg _ s).
  assert (Hr1 : length (reg s1) = 8%nat) by (simpl; by rewrite length_insert).
  rewrite (bind_Ok (reg_get 7) _ s1 sp' s1).
  2:{ apply reg_get_Ok. by rewrite (py_getitem_index _ _ _ (py_index_reg7 _ Hr1)). }
  by rewrite (reg_set_Ok s1 7 _ 7%nat) by by apply py_index_reg7.
Qed.

Lemma pop_Ok s b sp kb x :
  length (ram s) = 256%nat → length (reg s) = 8%nat →
  reg s !! 7%nat = Some sp → 0 ≤ sp ≤ 255 →
  ram s !! Z.to_nat sp = Some x →
  py_index 8 b = Some kb →
  ∃ sp', <[kb := x]> (reg s) !! 7%nat = Some sp'
  ∧ CPU.pop b s
    = Ok tt (with_reg (<[7%nat := Z.land (sp' + 1) 0xff]> (<[kb := x]> (reg s))) s).
Proof.
  intros Hm Hr Hsp Hrange Hx Hb. apply (pop_any s b sp kb x); try done.
  by rewrite py_getitem_at_byte.
Qed.

(** [pop] when the stack pointer is not a valid address. *)
Lemma pop_IndexError s b sp :
  length (reg s) = 8%nat →
  reg s !! 7%nat = Some sp →
  py_getitem (ram s) sp = None →
  CPU.pop b s = Raise IndexError s.
Proof.
  intros Hr Hsp Hx. unfold CPU.pop, CPU.stack_pointer.
  pose proof (py_index_reg7 _ Hr) as H7.
  rewrite (bind_Ok (reg_get 7) _ s sp s)
    by (apply reg_get_Ok; by rewrite (py_getitem_index _ _ _ H7)).
  apply bind_Raise. unfold CPU.ram_read. by rewrite Hx.
Qed.

(** What [call] does on a state with a well-formed stack pointer. *)
Lemma call_Ok s r sp kr x :
  length (ram s) = 256%nat → length (reg s) = 8%nat →
  reg s !! 7%nat = Some sp →
  py_index 8 r = Some kr →
  <[7%nat := Z.land (sp - 1) 0xff]> (reg s) !! kr = Some x →
  CPU.call r s
  = Ok tt (with_pc x
            (with_ram (<[Z.to_nat (Z.land (sp - 1) 0xff) := pc s + 2]> (ram s))
              (with_reg (<[7%nat := Z.land (sp - 1) 0xff]> (reg s)) s))).
Proof.
  intros Hm Hr Hsp Hk Hx.
  unfold CPU.call, CPU.stack_pointer, CPU.set_stack_pointer.
  pose proof (py_index_reg7 _ Hr) as H7.
  rewrite (bind_Ok (reg_get 7) _ s sp s)
    by (apply reg_get_Ok; by rewrite (py_getitem_index _ _ _ H7)).
  erewrite bind_Ok; [|by apply reg_set_Ok].
  set (s1 := with_reg _ s).
  assert (Hr1 : length (reg s1) = 8%nat) by (simpl; by rewrite length_insert).
  rewrite (bind_Ok (reg_get 7) _ s1 (Z.land (sp - 1) 0xff) s1).
  2:{ apply reg_get_Ok. rewrite (py_getitem_index _ _ _ (py_index_reg7 _ Hr1)).
      simpl. apply list_lookup_insert_eq. lia. }
  rewrite (bind_Ok get_pc _ s1 (pc s) s1) by reflexivity.
  erewrite bind_Ok.
  2:{ apply ram_write_Ok. simpl.
      apply py_index_byte; [done | apply land_255_range]. }
  set (s2 := with_ram _ s1).
  rewrite (bind_Ok (reg_get r) _ s2 x s2); [reflexivity|].
  apply reg_get_Ok. unfold py_getitem. simpl. by rewrite length_insert, Hr, Hk.
Qed.

(** What [ret] does when the stack pointer is [sp] and the cell it
    designates holds [x]. *)
Lemma ret_any s sp x :
  length (reg s) = 8%nat →
  reg s !! 7%nat = Some sp →
  py_getitem (ram s) sp = Some x →
  CPU.ret s
  = Ok tt (with_reg (<[7%nat := Z.land (sp + 1) 0xff]> (reg s)) (with_pc x s)).
Proof.
  intros Hr Hsp Hx.
  unfold CPU.ret, CPU.stack_pointer, CPU.set_stack_pointer.
  pose proof (py_index_reg7 _ Hr) as H7.
  rewrite (bind_Ok (reg_get 7) _ s sp s)
    by (apply reg_get_Ok; by rewrite (py_getitem_index _ _ _ H7)).
  rewrite (bind_Ok (CPU.ram_read sp) _ s x s) by by apply ram_read_Ok.
  rewrite (bind_Ok (set_pc x) _ s tt (with_pc x s)) by reflexivity.
  rewrite (bind_Ok (reg_get 7) _ (with_pc x s) sp (with_pc x s)).
  2:{ apply reg_get_Ok. simpl. by rewrite (py_getitem_index _ _ _ H7). }
  by rewrite (reg_set_Ok (with_pc x s) 7 _ 7%nat) by (simpl; by apply py_index_reg7).
Qed.

Lemma ret_Ok s sp x :
  length (ram s) = 256%nat → length (reg s) = 8%nat →
  reg s !! 7%nat = Some sp → 0 ≤ sp ≤ 255 →
  ram s !! Z.to_nat sp = Some x →
  CPU.ret s
  = Ok tt (with_reg (<[7%nat := Z.land (sp + 1) 0xff]> (reg s)) (with_pc x s)).
Proof.
  intros Hm Hr Hsp Hrange Hx. apply ret_any; try done.
  by rewrite py_getitem_at_byte.
Qed.

(** [ret] when the stack pointer is not a valid address. *)
Lemma ret_IndexError s sp :
  length (reg s) = 8%nat →
  reg s !! 7%nat = Some sp →
  py_getitem (ram s) sp = None →
  CPU.ret s = Raise IndexError s.
Proof.
  intros Hr Hsp Hx. unfold CPU.ret, CPU.stack_pointer.
  pose proof (py_index_reg7 _ Hr) as H7.
  rewrite (bind_Ok (reg_get 7) _ s sp s)
    by (apply reg_get_Ok; by rewrite (py_getitem_index _ _ _ H7)).
  apply bind_Raise. unfold CPU.ram_read. by rewrite Hx.
Qed.

(** ** Rules for triples *)

Lemma hoare_bind {A B} P (m : M A) (f : A → M B) Q R E :
  hoare P m Q E → (∀ v, hoare (Q v) (f v) R E) → hoare P (m ≫= f) R E.
Proof.
  intros Hm Hf s HP. specialize (Hm s HP). unfold mbind, M_bind.
  destruct (m s) as [v s'|e s']; [by apply Hf | done].
Qed.

Lemma hoare_conseq {A} (P P' : cpu → Prop) (m : M A) (Q Q' : A → cpu → Prop)
    (E E' : cpu → Prop) :
  hoare P m Q E → (∀ s, P' s → P s) → (∀ v s, Q v s → Q' v s) →
  (∀ s, E s → E' s) → hoare P' m Q' E'.
Proof.
  intros H HP HQ HE s Hs. specialize (H s (HP s Hs)).
  destruct (m s); auto.
Qed.

Lemma hoare_pre {A} (P P' : cpu → Prop) (m : M A) Q E :
  (∀ s, P' s → P s) → hoare P m Q E → hoare P' m Q E.
Proof. intros HP H. by apply (hoare_conseq P P' m Q Q E E). Qed.

Lemma hoare_post {A} P (m : M A) (Q Q' : A → cpu → Prop) E :
  (∀ v s, Q v s → Q' v s) → hoare P m Q E → hoare P m Q' E.
Proof. intros HQ H. by apply (hoare_conseq P P m Q Q' E E). Qed.

Lemma hoare_pure {A} (φ : Prop) P (m : M A) Q E :
  (φ → hoare P m Q E) → hoare (λ s, P s ∧ φ) m Q E.
Proof. intros H s [HP Hφ]. by apply H. Qed.

Lemma hoare_ret {A} (v : A) (Q : A → cpu → Prop) E : hoare (Q v) (mret v) Q E.
Proof. by intros s HQ. Qed.

Lemma hoare_raise {A} (e : exn) (Q : A → cpu → Prop) E : hoare E (raise e) Q E.
Proof. by intros s HE. Qed.

Lemma hoare_reads {A} (m : M A) R P :
  reads m R → hoare P m (λ v s, P s ∧ R s v) P.
Proof.
  intros Hm s HP. specialize (Hm s).
  destruct (m s) as [v s'|e s']; [by destruct Hm as [-> ?] | by subst].
Qed.

Lemma reads_reg_get a :
  reads (reg_get a) (λ s v, py_getitem (reg s) a = Some v).
Proof. intros s. unfold reg_get. by destruct (py_getitem (reg s) a). Qed.

Lemma reads_reg_get_opt b :
  reads (reg_get_opt b) (λ s v, ∃ i, b = Some i ∧ py_getitem (reg s) i = Some v).
Proof.
  intros s. destruct b as [i|]; simpl; [|done].
  pose proof (reads_reg_get i s) as H.
  destruct (reg_get i s); [|done]. destruct H as [-> H]. eauto.
Qed.

(** ** What [alu] changes *)

Lemma hoare_reg_set_from s0 a v :
  hoare (eq s0) (reg_set a v) (λ _ s', wrote_reg a s0 s') (eq s0).
Proof.
  intros s <-. unfold reg_set, py_setitem.
  destruct (py_index (length (reg s0)) a) as [k|] eqn:Hk; [|done].
  right. by exists k, v.
Qed.

Lemma hoare_read_from {A B} s0 (m : M A) R (f : A → M B) Q :
  reads m R →
  (∀ v, R s0 v → hoare (eq s0) (f v) Q (eq s0)) →
  hoare (eq s0) (m ≫= f) Q (eq s0).
Proof.
  intros Hm Hf. eapply hoare_bind; [by apply (hoare_reads m R)|].
  intros v s [<- HR]. by apply Hf.
Qed.

Lemma hoare_guard_from {B} s0 (c : bool) (e : exn) (f : unit → M B) Q :
  hoare (eq s0) (f tt) Q (eq s0) →
  hoare (eq s0) ((if c then raise e else mret tt) ≫= f) Q (eq s0).
Proof.
  intros Hf. apply (hoare_bind _ _ _ (λ _, eq s0)); [|by intros []].
  destruct c; [apply hoare_raise | apply (hoare_ret tt (λ _, eq s0))].
Qed.

Ltac alu_branch :=
  repeat first
    [ apply hoare_reg_set_from
    | apply hoare_raise
    | apply hoare_guard_from
    | eapply hoare_read_from;
      [first [apply reads_reg_get | apply reads_reg_get_opt]|]; intros ? ?
    | match goal with
      | |- hoare _ (if ?c then _ else _) _ _ => destruct c
      | |- hoare _ (match ?c with Some _ => _ | None => _ end) _ _ =>
          destruct c
      end ].

(** [alu] raises with the state untouched, or returns having changed
    nothing but register [a], which then holds a value masked to 8 bits. *)
Lemma alu_effect op a b s0 :
  hoare (eq s0) (CPU.alu op a b)
    (λ _ s', ∃ k v, py_index (length (reg s0)) a = Some k
                    ∧ s' = with_reg (<[k := Z.land v 0xff]> (reg s0)) s0)
    (eq s0).
Proof.
  unfold CPU.alu. apply (hoare_bind _ _ _ (λ _ s', wrote_reg a s0 s')).
  - alu_branch. intros s <-. by left.
  - intros _ s1 [-> | (k & v & Hk & ->)]; unfold mbind, M_bind.
    + pose proof (reads_reg_get a s0) as Hr.
      destruct (reg_get a s0) as [x s'|e s']; [|done].
      destruct Hr as [-> Hx].
      apply py_getitem_Some in Hx as (k & Hk & _).
      rewrite (reg_set_Ok s0 a _ k Hk). by exists k, x.
    + rewrite (reg_get_Ok _ a v) by by apply py_getitem_insert.
      rewrite (reg_set_Ok _ a _ k) by (simpl; by rewrite length_insert).
      exists k, v. split; [done|]. simpl.
      unfold with_reg. simpl. by rewrite list_insert_insert_eq.
Qed.

(** ** Code that keeps cells and registers 8-bit *)

Lemma inv_all_bytes C s : inv C s → all_bytes s.
Proof. intros (? & ? & _). by repeat split. Qed.

Lemma py_getitem_byte l i v :
  Forall byte l → py_getitem l i = Some v → byte v.
Proof.
  intros Hl Hv. apply py_getitem_Some in Hv as (k & _ & Hk).
  by apply (Forall_lookup_1 _ _ _ _ Hl Hk).
Qed.

Lemma py_setitem_bytes l i v l' :
  Forall byte l → byte v → py_setitem l i v = Some l' → Forall byte l'.
Proof.
  unfold py_setitem. intros Hl Hv H.
  destruct (py_index (length l) i); [|done].
  injection H as <-. by apply Forall_insert.
Qed.

Lemma bytes_reg_get C a :
  hoare (inv C) (reg_get a) (λ v s, inv C s ∧ byte v) all_bytes.
Proof.
  intros s HI. unfold reg_get.
  destruct (py_getitem (reg s) a) as [v|] eqn:Hv;
    [|by apply (inv_all_bytes C)].
  split; [done|]. destruct HI as (_ & Hr & _). by apply (py_getitem_byte (reg s) a).
Qed.

Lemma bytes_ram_read C a :
  hoare (inv C) (CPU.ram_read a) (λ v s, inv C s ∧ byte v) all_bytes.
Proof.
  intros s HI. unfold CPU.ram_read.
  destruct (py_getitem (ram s) a) as [v|] eqn:Hv;
    [|by apply (inv_all_bytes C)].
  split; [done|]. destruct HI as (Hm & _ & _). by apply (py_getitem_byte (ram s) a).
Qed.

Lemma bytes_get_pc C : hoare (inv C) get_pc (λ p s, inv C s ∧ C p) all_bytes.
Proof. intros s HI. split; [done|]. by destruct HI as (_ & _ & ?). Qed.

Lemma bytes_reg_set C a v :
  byte v → hoare (inv C) (reg_set a v) (λ _, inv C) all_bytes.
Proof.
  intros Hv s HI. unfold reg_set.
  destruct (py_setitem (reg s) a v) as [r|] eqn:Hr;
    [|by apply (inv_all_bytes C)].
  destruct HI as (Hm & Hg & Hp). split; [done|]. split; [|done].
  by apply (py_setitem_bytes (reg s) a v).
Qed.

Lemma bytes_ram_write C a v :
  byte v → hoare (inv C) (CPU.ram_write a v) (λ _, inv C) all_bytes.
Proof.
  intros Hv s HI. unfold CPU.ram_write.
  destruct (py_setitem (ram s) a v) as [m|] eqn:Hm';
    [|by apply (inv_all_bytes C)].
  destruct HI as (Hm & Hg & Hp). split; [|done].
  by apply (py_setitem_bytes (ram s) a v).
Qed.

Lemma bytes_set_pc C (C' : Z → Prop) x :
  C' x → hoare (inv C) (set_pc x) (λ _, inv C') all_bytes.
Proof. intros Hx s (Hm & Hg & _). by repeat split. Qed.

Lemma bytes_print C x : hoare (inv C) (print x) (λ _, inv C) all_bytes.
Proof. by intros s HI. Qed.

Lemma bytes_raise {A} C (e : exn) (Q : A → cpu → Prop) :
  hoare (inv C) (raise e) Q all_bytes.
Proof. intros s HI. by apply (inv_all_bytes C). Qed.

Lemma bytes_ret {A} C (v : A) : hoare (inv C) (mret v) (λ _, inv C) all_bytes.
Proof. by intros s HI. Qed.

Lemma bytes_stack_pointer C :
  hoare (inv C) CPU.stack_pointer (λ v s, inv C s ∧ byte v) all_bytes.
Proof. apply bytes_reg_get. Qed.

Lemma bytes_set_stack_pointer C v :
  hoare (inv C) (CPU.set_stack_pointer v) (λ _, inv C) all_bytes.
Proof. apply bytes_reg_set. apply land_255_range. Qed.

Lemma bytes_pc_add n : hoare all_bytes (pc_add n) (λ _, all_bytes) all_bytes.
Proof.
  unfold pc_add. eapply hoare_bind; [apply bytes_get_pc|].
  intros p. apply hoare_pure. intros _. by apply bytes_set_pc.
Qed.

Create HintDb bytes.
#[local] Hint Resolve bytes_reg_get bytes_ram_read bytes_get_pc
  bytes_stack_pointer bytes_set_stack_pointer bytes_print bytes_pc_add
  : bytes.

(** One step of a sequence: the first computation by a lemma of the
    database, then the value it returned and what is known of it. *)
Ltac bytes_step :=
  eapply hoare_bind;
  [ solve [eauto with bytes]
  | intros ?; try (apply hoare_pure; intros ?) ].

Lemma bytes_push C a : hoare (inv C) (CPU.push a) (λ _, inv C) all_bytes.
Proof. unfold CPU.push. do 4 bytes_step. by apply bytes_ram_write. Qed.

Lemma bytes_pop C a : hoare (inv C) (CPU.pop a) (λ _, inv C) all_bytes.
Proof.
  unfold CPU.pop. do 2 bytes_step.
  eapply hoare_bind; [by apply bytes_reg_set|]. intros ?.
  bytes_step. apply bytes_set_stack_pointer.
Qed.

Lemma bytes_prn C a : hoare (inv C) (CPU.prn a) (λ _, inv C) all_bytes.
Proof. unfold CPU.prn. bytes_step. apply bytes_print. Qed.

Lemma bytes_ldi C a v :
  byte v → hoare (inv C) (CPU.ldi a v) (λ _, inv C) all_bytes.
Proof. apply bytes_reg_set. Qed.

Lemma bytes_ret_handler C :
  hoare (inv C) CPU.ret (λ _, all_bytes) all_bytes.
Proof.
  unfold CPU.ret. do 2 bytes_step.
  eapply hoare_bind; [by apply (bytes_set_pc C (λ _, True))|]. intros ?.
  bytes_step. apply bytes_set_stack_pointer.
Qed.

(** [call] stores [pc + 2] as it is: the only requirement on the state. *)
Lemma bytes_call a :
  hoare (inv (λ p, byte (p + 2))) (CPU.call a) (λ _, all_bytes) all_bytes.
Proof.
  unfold CPU.call. do 4 bytes_step.
  eapply hoare_bind; [by apply bytes_ram_write|]. intros ?.
  bytes_step. by apply bytes_set_pc.
Qed.

Lemma bytes_alu C op a b :
  hoare (inv C) (CPU.alu op a b) (λ _, inv C) all_bytes.
Proof.
  intros s HI. pose proof (alu_effect op a b s s eq_refl) as H.
  destruct (CPU.alu op a b s) as [[] s'|e s'].
  - destruct H as (k & v & _ & ->). destruct HI as (Hm & Hg & Hp).
    split; [done|]. split; [|done]. simpl.
    apply Forall_insert; [done | apply land_255_range].
  - subst s'. by apply (inv_all_bytes C).
Qed.

Lemma bytes_invoke h args :
  Forall byte args →
  hoare (inv (λ p, h = h_call → length args = 1%nat → byte (p + 2)))
    (invoke h args) (λ _, all_bytes) all_bytes.
Proof.
  intros Hargs.
  assert (Hw : ∀ C (m : M unit),
             hoare (inv C) m (λ _, inv C) all_bytes →
             hoare (inv C) m (λ _, all_bytes) all_bytes).
  { intros C m. apply hoare_post. intros _ s. apply inv_all_bytes. }
  destruct h, args as [|a [|v [|? ?]]]; simpl;
    try apply bytes_raise.
  - eapply hoare_pre; [|apply bytes_call].
    intros s (? & ? & Hp). split; [done|]. split; [done|]. by apply Hp.
  - apply Hw, bytes_ldi. by apply Forall_cons in Hargs as [_ [? _]%Forall_cons].
  - apply Hw, bytes_prn.
  - apply Hw, bytes_pop.
  - apply Hw, bytes_push.
  - apply bytes_ret_handler.
Qed.

(** Called with no operand or with two, no handler is [call]: the call
    fails for its number of arguments before anything is written. *)
Lemma bytes_invoke_no_call h args :
  Forall byte args → length args ≠ 1%nat →
  hoare all_bytes (invoke h args) (λ _, all_bytes) all_bytes.
Proof.
  intros Hargs Hlen. eapply hoare_pre; [|by apply bytes_invoke].
  intros s (? & ? & _). by repeat split.
Qed.

(** The dispatch branch for one operand. *)
Lemma bytes_dispatch_one ir :
  hoare (λ s, all_bytes s
              ∧ (dispatch_table s !! ir = Some h_call →
                 ∀ a, py_getitem (ram s) (pc s + 1) = Some a →
                      byte (pc s + 2)))
    (h ← lookup_handler ir;
     p ← get_pc; a ← CPU.ram_read (p + 1);
     invoke h [a];; pc_add 2)
    (λ _, all_bytes) all_bytes.
Proof.
  intros s [Hb Hc]. unfold mbind at 1, M_bind at 1, lookup_handler.
  destruct (dispatch_table s !! ir) as [h|] eqn:Hh; [|done].
  unfold mbind at 1, M_bind at 1, get_pc.
  unfold mbind at 1, M_bind at 1, CPU.ram_read.
  destruct (py_getitem (ram s) (pc s + 1)) as [a|] eqn:Ha; [|done].
  assert (Hbyte : byte a).
  { destruct Hb as (Hm & _ & _). by apply (py_getitem_byte (ram s) (pc s + 1)). }
  apply (hoare_bind (inv (λ p, h = h_call → length [a] = 1%nat → byte (p + 2)))
           (invoke h [a]) (λ _, pc_add 2) (λ _, all_bytes) (λ _, all_bytes)
           all_bytes).
  - apply bytes_invoke. by apply Forall_cons_2; [|apply Forall_nil_2].
  - intros ?. apply bytes_pc_add.
  - destruct Hb as (? & ? & _). split; [done|]. split; [done|].
    intros -> _. by apply (Hc eq_refl a).
Qed.

(** The dispatch branches for no operand and for two. *)
Lemma bytes_dispatch_other {B} ir (f : handler → M B) Q :
  (∀ h, hoare all_bytes (f h) Q all_bytes) →
  hoare all_bytes (lookup_handler ir ≫= f) Q all_bytes.
Proof.
  intros Hf s Hb. unfold mbind, M_bind, lookup_handler.
  destruct (dispatch_table s !! ir) as [h|]; [by apply Hf | done].
Qed.

Lemma bytes_run_iteration ir :
  hoare (λ s, all_bytes s
              ∧ (truthy (is_alu_operation ir) = false →
                 num_operands ir = 1 →
                 dispatch_table s !! ir = Some h_call →
                 ∀ a, py_getitem (ram s) (pc s + 1) = Some a →
                      byte (pc s + 2)))
    (run_iteration ir) (λ _, all_bytes) all_bytes.
Proof.
  unfold run_iteration. cbv zeta.
  apply (hoare_bind _ _ _ (λ _, all_bytes)).
  - destruct (truthy (is_alu_operation ir)) eqn:Halu.
    + apply (hoare_pre all_bytes); [by intros s [? _]|].
      destruct (num_operands ir =? 1); [|destruct (num_operands ir =? 2)].
      * do 2 bytes_step.
        eapply hoare_bind; [apply bytes_alu|]. intros ?. apply bytes_pc_add.
      * do 2 bytes_step. do 2 bytes_step.
        eapply hoare_bind; [apply bytes_alu|]. intros ?. apply bytes_pc_add.
      * apply bytes_print.
    + destruct (num_operands ir =? 0);
        [|destruct (Z.eqb_spec (num_operands ir) 1) as [H1|_];
          [|destruct (num_operands ir =? 2)]].
      * apply (hoare_pre all_bytes); [by intros s [? _]|].
        apply bytes_dispatch_other. intros h.
        eapply hoare_bind; [by apply bytes_invoke_no_call|]. intros ?.
        apply bytes_pc_add.
      * eapply hoare_pre; [|apply bytes_dispatch_one].
        intros s [Hb Hc]. split; [done|]. intros Hh. by apply Hc.
      * apply (hoare_pre all_bytes); [by intros s [? _]|].
        apply bytes_dispatch_other. intros h. do 2 bytes_step. do 2 bytes_step.
        eapply hoare_bind;
          [apply bytes_invoke_no_call;
           [repeat (apply Forall_cons_2; [assumption|]); apply Forall_nil_2
           | done]|].
        intros ?. apply bytes_pc_add.
      * apply (hoare_pre all_bytes); [by intros s [? _]|]. apply bytes_print.
  - intros ?. apply (hoare_bind _ _ _ (λ _, all_bytes)).
    + destruct (negb (truthy (sets_pc ir)));
        [apply bytes_pc_add | apply bytes_ret].
    + intros ?. bytes_step.
      eapply hoare_post; [|apply bytes_ram_read]. by intros x t [? _].
Qed.

(** The loader keeps the cells 8-bit when every line that parses gives an
    8-bit value. *)
Lemma bytes_load_from program address :
  (∀ line v, line ∈ program → int2 (before_hash line) = Some v → byte v) →
  hoare all_bytes (Loader.load_from program address) (λ _, all_bytes) all_bytes.
Proof.
  revert address. induction program as [|line rest IH]; intros address Hp.
  - apply bytes_ret.
  - simpl. destruct (int2 (before_hash line)) as [v|] eqn:Hv.
    + eapply hoare_bind.
      * apply bytes_ram_write. apply (Hp line); [apply elem_of_cons; by left | done].
      * intros ?. apply IH. intros l w Hl. apply Hp. apply elem_of_cons. by right.
    + apply IH. intros l w Hl. apply Hp. apply elem_of_cons. by right.
Qed.

Lemma all_bytes_init : all_bytes init.
Proof.
  split; [|split; [|done]].
  - apply Forall_replicate. unfold byte. lia.
  - apply Forall_insert; [apply Forall_replicate; unfold byte; lia|].
    by vm_compute.
Qed.

(** ** Passes of the loop *)

Lemma passes_S n s :
  passes (S n) s
  = match passes n s with
    | Ok ir s' => run_iteration ir s'
    | Raise e s' => Raise e s'
    end.
Proof.
  unfold passes, mbind, M_bind. simpl.
  destruct (CPU.ram_read (pc s) s) as [ir s'|e s']; [|done].
  unfold mbind, M_bind. done.
Qed.

Lemma run_loop_iterations fuel ir s :
  run_loop fuel ir s
  = match iterations fuel ir s with
    | Ok _ _ => None
    | Raise e s' => Some (e, s')
    end.
Proof.
  revert ir s. induction fuel as [|k IH]; intros ir s; [done|].
  assert (Hshift : ∀ n i t,
    iterations (S n) i t
    = match run_iteration i t with
      | Ok i' t' => iterations n i' t'
      | Raise e t' => Raise e t'
      end).
  { induction n as [|n IHn]; intros i t.
    - simpl. unfold mbind, M_bind, mret, M_ret.
      by destruct (run_iteration i t).
    - change (iterations (S (S n)) i t)
        with ((iterations (S n) i ≫= run_iteration) t).
      unfold mbind at 1, M_bind at 1. rewrite IHn.
      destruct (run_iteration i t) as [i' t'|e t']; [|done].
      reflexivity. }
  rewrite Hshift. simpl.
  destruct (run_iteration ir s) as [ir' s'|e s']; [apply IH | done].
Qed.

(** [run] with fuel [n] ends with the exception that [passes n] raises, and
    is still looping when [passes n] returns. *)
Lemma run_passes fuel s :
  run fuel s
  = match passes fuel s with
    | Ok _ _ => None
    | Raise e s' => Some (e, s')
    end.
Proof.
  unfold run, passes, mbind, M_bind. simpl.
  destruct (CPU.ram_read (pc s) s) as [ir s'|e s']; [|done].
  apply run_loop_iterations.
Qed.

Lemma bytes_passes n s0 :
  all_bytes s0 →
  (∀ k ir s a, (k < n)%nat → passes k s0 = Ok ir s →
               truthy (is_alu_operation ir) = false →
               num_operands ir = 1 →
               dispatch_table s !! ir = Some h_call →
               py_getitem (ram s) (pc s + 1) = Some a →
               byte (pc s + 2)) →
  all_bytes (final_state (passes n s0)).
Proof.
  intros H0. induction n as [|n IH]; intros Hcall.
  - assert (H : hoare all_bytes (passes 0) (λ _, all_bytes) all_bytes).
    { unfold passes. bytes_step. bytes_step. apply bytes_ret. }
    specialize (H s0 H0). by destruct (passes 0 s0).
  - rewrite passes_S.
    assert (IH' : all_bytes (final_state (passes n s0))).
    { apply IH. intros k ir s a Hk. apply Hcall. lia. }
    destruct (passes n s0) as [ir s|e s] eqn:Hn; [|done].
    pose proof (bytes_run_iteration ir s) as H.
    specialize (H (conj IH' (λ H1 H2 H3 a H4,
                     Hcall n ir s a (Nat.lt_succ_diag_r n) Hn H1 H2 H3 H4))).
    by destruct (run_iteration ir s).
Qed.

(** ** The claims *)

(** C1, amended. Executing [HLT] calls [sys.exit()]: [SystemExit] is raised
    out of [run] in that same pass of the loop, before the program counter
    is advanced, so registers, memory and program counter are as they were
    at the fetch.  On the program made of the halt opcode alone this is the
    first pass and the program counter is still 0. *)
Theorem hlt_raises_SystemExit (s : cpu) (fuel : nat) :
  py_getitem (ram s) (pc s) = Some HLT →
  dispatch_table s !! HLT = Some h_hlt →
  run (S fuel) s = Some (SystemExit, s)
  ∧ run_iteration HLT s = Raise SystemExit s.
Proof.
  intros Hf Ht. split; [|by apply run_iteration_hlt].
  apply (run_first_raise s HLT); [done | by apply run_iteration_hlt].
Qed.

(** C2, evaluated where it fails. [LDI] has the sets-PC bit clear and two
    operands, so the advance should be 3; the loop adds 3 in the dispatch
    branch and 3 again in the common advance, and the program counter moves
    from 0 to 6.  [CALL] has the sets-PC bit set and its handler leaves the
    program counter at the value of the register (0 here); the dispatch
    branch then adds 2. *)
Theorem pc_advanced_twice :
  (sets_pc LDI = 0 ∧ num_operands LDI = 2 ∧ pc ldi_only = 0
   ∧ ∃ ir s', run_iteration LDI ldi_only = Ok ir s' ∧ pc s' = 6)
  ∧ (sets_pc CALL = 1 ∧ pc call_only = 0
     ∧ (∃ s1, CPU.call 0 call_only = Ok tt s1 ∧ pc s1 = 0)
     ∧ ∃ ir s', run_iteration CALL call_only = Ok ir s' ∧ pc s' = 2).
Proof.
  split.
  - do 3 (split; [reflexivity|]).
    eexists _, _. split; [vm_compute; reflexivity | reflexivity].
  - do 2 (split; [reflexivity|]). split.
    + eexists. split; [vm_compute; reflexivity | reflexivity].
    + eexists _, _. split; [vm_compute; reflexivity | reflexivity].
Qed.

(** C3, amended. When the fetched opcode has the ALU flag clear, an operand
    count of 0, 1 or 2 and no entry in the dispatch table, the table lookup
    raises [KeyError] for that opcode before any operand is read or any
    state is changed, and the exception leaves [run] in that pass. *)
Theorem unregistered_opcode_KeyError (op : Z) (s : cpu) (fuel : nat) :
  truthy (is_alu_operation op) = false →
  0 ≤ num_operands op ≤ 2 →
  dispatch_table s !! op = None →
  run_iteration op s = Raise (KeyError op) s
  ∧ (py_getitem (ram s) (pc s) = Some op →
     run (S fuel) s = Some (KeyError op, s)).
Proof.
  intros Halu Hle Hnone.
  assert (H := run_iteration_unregistered op s Halu Hle Hnone).
  split; [done|]. intros Hf. by apply (run_first_raise s op).
Qed.

(** C4. With register [b] holding 0, [alu] raises on [DIV] (the source's
    own [ValueError("Cannot divide by 0")]) and on [MOD] (Python's
    [ZeroDivisionError]); nothing has been written when it raises, so
    register [a], every other register and the memory are unchanged; the
    exception is not caught by the loop and ends [run]. *)
Theorem div_mod_by_zero (s : cpu) (a b x : Z) (fuel : nat) :
  py_getitem (reg s) a = Some x →
  py_getitem (reg s) b = Some 0 →
  CPU.alu DIV a (Some b) s = Raise (ValueError "Cannot divide by 0") s
  ∧ CPU.alu MOD a (Some b) s = Raise ZeroDivisionError s
  ∧ (py_getitem (ram s) (pc s + 1) = Some a →
     py_getitem (ram s) (pc s + 2) = Some b →
     (py_getitem (ram s) (pc s) = Some DIV →
      run (S fuel) s = Some (ValueError "Cannot divide by 0", s))
     ∧ (py_getitem (ram s) (pc s) = Some MOD →
        run (S fuel) s = Some (ZeroDivisionError, s))).
Proof.
  intros Ha Hb.
  assert (Hd := alu_div_by_zero s a b Hb).
  assert (Hm := alu_mod_by_zero s a b x Ha Hb).
  split; [done|]. split; [done|]. intros Hra Hrb. split; intros Hf.
  - apply (run_first_raise s DIV); [done|].
    by apply (run_iteration_alu2_raise DIV s a b).
  - apply (run_first_raise s MOD); [done|].
    by apply (run_iteration_alu2_raise MOD s a b).
Qed.

(** C5, amended. [alu] masks the register it writes: when it returns,
    register [a] holds a value in [0, 255] whatever the registers held
    before, and no other register has changed.  [ldi] stores its operand
    as it is: register [a] then holds the operand, no other register has
    changed, and the registers are all 8-bit if they were before and the
    operand is.  A pass of the loop other than a call, started with all
    cells and registers 8-bit, leaves all registers 8-bit. *)
Theorem alu_masks_ldi_stores (s : cpu) (op a : Z) (b : option Z) (v : Z) :
  (∀ s', CPU.alu op a b s = Ok tt s' →
     ∃ k x, py_index (length (reg s)) a = Some k
            ∧ py_getitem (reg s') a = Some x ∧ byte x
            ∧ (∀ j, j ≠ k → reg s' !! j = reg s !! j)
            ∧ (Forall byte (reg s) → Forall byte (reg s')))
  ∧ (∀ s', CPU.ldi a v s = Ok tt s' →
       ∃ k, py_index (length (reg s)) a = Some k
            ∧ py_getitem (reg s') a = Some v
            ∧ (∀ j, j ≠ k → reg s' !! j = reg s !! j)
            ∧ (Forall byte (reg s) → byte v → Forall byte (reg s')))
  ∧ (∀ ir, all_bytes s → dispatch_table s !! ir ≠ Some h_call →
           Forall byte (reg (final_state (run_iteration ir s)))).
Proof.
  split; [|split].
  - intros s' Halu. pose proof (alu_effect op a b s s eq_refl) as H.
    rewrite Halu in H. destruct H as (k & x & Hk & ->).
    exists k, (Z.land x 0xff). split; [done|]. simpl.
    split; [by apply py_getitem_insert|].
    split; [apply land_255_range|].
    split; [intros j Hj; by apply list_lookup_insert_ne|].
    intros Hr. apply Forall_insert; [done | apply land_255_range].
  - unfold CPU.ldi, reg_set, py_setitem. intros s'.
    destruct (py_index (length (reg s)) a) as [k|] eqn:Hk; [|done].
    intros [= <-]. exists k. split; [done|]. simpl.
    split; [by apply py_getitem_insert|].
    split; [intros j Hj; by apply list_lookup_insert_ne|].
    intros Hr Hv. by apply Forall_insert.
  - intros ir Hb Hne.
    assert (H : all_bytes (final_state (run_iteration ir s))).
    { pose proof (bytes_run_iteration ir s) as H.
      specialize (H (conj Hb (λ _ _ Hc _ _, False_ind _ (Hne Hc)))).
      by destruct (run_iteration ir s). }
    by destruct H as (_ & ? & _).
Qed.

(** C7, amended. On a state whose stack pointer is an 8-bit value, for
    register indices [a] and [b] with [b] not register 7: [push(a)]
    followed by [pop(b)] leaves in register [b] the value that [push]
    wrote, which is the value register [a] held when it was written (the
    value it held before the push unless [a] is register 7), and the stack
    pointer is again what it was before the push. *)
Theorem push_then_pop (s : cpu) (a b sp : Z) :
  length (ram s) = 256%nat → length (reg s) = 8%nat →
  py_getitem (reg s) 7 = Some sp → 0 ≤ sp ≤ 255 →
  -8 ≤ a < 8 → -8 ≤ b < 7 → b ≠ -1 →
  ∃ s1 s2 v,
    CPU.push a s = Ok tt s1 ∧ CPU.pop b s1 = Ok tt s2
    ∧ py_getitem (reg s1) a = Some v
    ∧ py_getitem (ram s1) (Z.land (sp - 1) 0xff) = Some v
    ∧ (a ≠ 7 → a ≠ -1 → py_getitem (reg s) a = Some v)
    ∧ py_getitem (reg s2) b = Some v
    ∧ py_getitem (reg s2) 7 = Some sp.
Proof.
  intros Hm Hr Hsp Hrange Ha Hb Hb1.
  rewrite (py_getitem_index _ _ _ (py_index_reg7 _ Hr)) in Hsp.
  destruct (py_index_register (reg s) a Hr Ha) as (ka & Hka & Hka8 & Hka7).
  destruct (py_index_register (reg s) b Hr) as (kb & Hkb & Hkb8 & Hkb7); [lia|].
  rewrite Hr in Hka, Hkb.
  assert (Hkb7' : kb ≠ 7%nat) by (rewrite Hkb7; lia).
  set (sp1 := Z.land (sp - 1) 0xff).
  assert (Hsp1 : 0 ≤ sp1 ≤ 255) by apply land_255_range.
  destruct (lookup_lt_is_Some_2 (<[7%nat := sp1]> (reg s)) ka) as [v Hv];
    [rewrite length_insert; lia|].
  pose proof (push_Ok s a sp ka v Hm Hr Hsp Hka Hv) as Hpush.
  fold sp1 in Hpush.
  set (s1 := with_ram _ _) in Hpush.
  assert (Hm1 : length (ram s1) = 256%nat) by (simpl; by rewrite length_insert).
  assert (Hr1 : length (reg s1) = 8%nat) by (simpl; by rewrite length_insert).
  assert (Hsp1' : reg s1 !! 7%nat = Some sp1)
    by (simpl; apply list_lookup_insert_eq; lia).
  assert (Hcell : ram s1 !! Z.to_nat sp1 = Some v)
    by (simpl; apply list_lookup_insert_eq; lia).
  destruct (pop_Ok s1 b sp1 kb v Hm1 Hr1 Hsp1' Hsp1 Hcell Hkb)
    as (sp' & Hsp' & Hpop).
  rewrite list_lookup_insert_ne in Hsp' by done.
  rewrite Hsp1' in Hsp'. injection Hsp' as <-.
  eexists s1, _, v. split; [done|]. split; [exact Hpop|].
  assert (Hka1 : py_index (length (reg s1)) a = Some ka) by by rewrite Hr1.
  assert (Hkb1 : py_index (length (reg s1)) b = Some kb) by by rewrite Hr1.
  split; [by rewrite (py_getitem_index _ _ _ Hka1)|].
  split.
  { rewrite (py_getitem_index _ _ _ (py_index_byte _ _ Hm1 Hsp1)). exact Hcell. }
  split.
  { intros Ha7 Ha1. unfold py_getitem. rewrite Hr, Hka.
    rewrite list_lookup_insert_ne in Hv; [done|].
    intros Heq. symmetry in Heq. apply Hka7 in Heq. lia. }
  unfold sp1. rewrite sp_down_up by done. simpl. split.
  - unfold py_getitem. rewrite !length_insert, Hr, Hkb.
    rewrite list_lookup_insert_ne by done.
    apply list_lookup_insert_eq. rewrite length_insert. lia.
  - unfold py_getitem. rewrite !length_insert, Hr. simpl.
    apply list_lookup_insert_eq. rewrite !length_insert. lia.
Qed.

(** C8, amended. On every state, with the stack pointer at [sp] and the
    program counter at [p], for every register index [r]: [call(r)]
    followed by [ret()] leaves the program counter at [p + 2] and the stack
    pointer at [sp mod 256]; that is its value before the call when that
    value was an 8-bit one, and only then. *)
Theorem call_then_ret (s : cpu) (r sp : Z) :
  length (ram s) = 256%nat → length (reg s) = 8%nat →
  py_getitem (reg s) 7 = Some sp →
  -8 ≤ r < 8 →
  ∃ s1 s2,
    CPU.call r s = Ok tt s1 ∧ CPU.ret s1 = Ok tt s2
    ∧ py_getitem (ram s1) (Z.land (sp - 1) 0xff) = Some (pc s + 2)
    ∧ py_getitem (reg s1) r = Some (pc s1)
    ∧ pc s2 = pc s + 2
    ∧ py_getitem (reg s2) 7 = Some (sp mod 256)
    ∧ (py_getitem (reg s2) 7 = Some sp ↔ 0 ≤ sp ≤ 255).
Proof.
  intros Hm Hr Hsp Hidx.
  rewrite (py_getitem_index _ _ _ (py_index_reg7 _ Hr)) in Hsp.
  destruct (py_index_register (reg s) r Hr Hidx) as (kr & Hkr & Hkr8 & _).
  rewrite Hr in Hkr.
  set (sp1 := Z.land (sp - 1) 0xff).
  assert (Hsp1 : 0 ≤ sp1 ≤ 255) by apply land_255_range.
  destruct (lookup_lt_is_Some_2 (<[7%nat := sp1]> (reg s)) kr) as [x Hx];
    [rewrite length_insert; lia|].
  pose proof (call_Ok s r sp kr x Hm Hr Hsp Hkr Hx) as Hcall.
  fold sp1 in Hcall.
  set (s1 := with_pc _ _) in Hcall.
  assert (Hm1 : length (ram s1) = 256%nat) by (simpl; by rewrite length_insert).
  assert (Hr1 : length (reg s1) = 8%nat) by (simpl; by rewrite length_insert).
  assert (Hsp1' : reg s1 !! 7%nat = Some sp1)
    by (simpl; apply list_lookup_insert_eq; lia).
  assert (Hcell : ram s1 !! Z.to_nat sp1 = Some (pc s + 2))
    by (simpl; apply list_lookup_insert_eq; lia).
  pose proof (ret_Ok s1 sp1 (pc s + 2) Hm1 Hr1 Hsp1' Hsp1 Hcell) as Hret.
  eexists s1, _. split; [done|]. split; [exact Hret|].
  split.
  { rewrite (py_getitem_index _ _ _ (py_index_byte _ _ Hm1 Hsp1)). exact Hcell. }
  split.
  { unfold py_getitem. rewrite Hr1, Hkr. exact Hx. }
  split; [reflexivity|].
  assert (Hend : py_getitem (reg (with_reg (<[7%nat := Z.land (sp1 + 1) 0xff]>
                   (reg s1)) (with_pc (pc s + 2) s1))) 7 = Some (sp mod 256)).
  { unfold sp1. rewrite sp_down_up_mod. simpl.
    unfold py_getitem. rewrite !length_insert, Hr. simpl.
    apply list_lookup_insert_eq. rewrite length_insert. lia. }
  split; [exact Hend|]. rewrite Hend.
  pose proof (Z.mod_pos_bound sp 256). split.
  - intros [= Heq]. lia.
  - intros H'. by rewrite Z.mod_small by lia.
Qed.

(** C9, amended. The loader stores [int(line, 2)], [PUSH] stores the
    register and [CALL] stores [pc + 2], none of them masked.  Memory
    cells hold 8-bit values in every state that [run] goes through,
    provided every line of the program that parses gives a value in
    [0, 255] and no pass executes the [call] handler with [pc + 2] outside
    [0, 255].  A pass executes the [call] handler when the instruction it
    fetched has the ALU flag clear and one operand, the dispatch table
    gives [call] for it, and its operand can be read at [pc + 1]. *)
Theorem memory_cells_are_bytes (program : list string) (n : nat) :
  (∀ line v, line ∈ program → int2 (before_hash line) = Some v → byte v) →
  (∀ k ir s a, (k < n)%nat →
               passes k (final_state (Loader.load program init)) = Ok ir s →
               truthy (is_alu_operation ir) = false →
               num_operands ir = 1 →
               dispatch_table s !! ir = Some h_call →
               py_getitem (ram s) (pc s + 1) = Some a →
               byte (pc s + 2)) →
  Forall byte (ram (final_state (Loader.load program init)))
  ∧ Forall byte
      (ram (final_state (passes n (final_state (Loader.load program init))))).
Proof.
  intros Hprog Hcall.
  assert (H0 : all_bytes (final_state (Loader.load program init))).
  { pose proof (bytes_load_from program 0 Hprog init all_bytes_init) as H.
    unfold Loader.load. by destruct (Loader.load_from program 0 init). }
  split; [by destruct H0|].
  by destruct (bytes_passes n _ H0 Hcall).
Qed.

(** C10. Python list indexing on the 256-cell memory: for an address [a]
    in [-256, -1], [ram_read(a)] returns the cell at index [256 + a] and
    [ram_write(a, v)] writes that cell; [IndexError] is raised exactly for
    the addresses outside [-256, 255]. *)
Theorem ram_negative_addresses (s : cpu) (a v : Z) :
  length (ram s) = 256%nat →
  (-256 ≤ a ≤ -1 →
     (∃ x, ram s !! Z.to_nat (256 + a) = Some x ∧ CPU.ram_read a s = Ok x s)
     ∧ CPU.ram_write a v s
       = Ok tt (with_ram (<[Z.to_nat (256 + a) := v]> (ram s)) s))
  ∧ ((∃ e s', CPU.ram_read a s = Raise e s') ↔ ¬ (-256 ≤ a ≤ 255))
  ∧ ((∃ e s', CPU.ram_write a v s = Raise e s') ↔ ¬ (-256 ≤ a ≤ 255))
  ∧ (∀ e s', CPU.ram_read a s = Raise e s' → e = IndexError ∧ s' = s)
  ∧ (∀ e s', CPU.ram_write a v s = Raise e s' → e = IndexError ∧ s' = s).
Proof.
  intros Hlen.
  assert (Hnone : py_index (length (ram s)) a = None ↔ ¬ (-256 ≤ a ≤ 255)).
  { rewrite py_index_None, Hlen. change (Z.of_nat 256) with 256. lia. }
  split; [|split; [|split; [|split]]].
  - intros Ha.
    assert (Hk : py_index (length (ram s)) a = Some (Z.to_nat (256 + a))).
    { rewrite Hlen. apply (py_index_neg 256). change (Z.of_nat 256) with 256. lia. }
    split.
    + destruct (ram s !! Z.to_nat (256 + a)) as [x|] eqn:Hx.
      * exists x. split; [done|]. apply ram_read_Ok.
        by rewrite (py_getitem_index _ _ _ Hk).
      * apply lookup_ge_None in Hx. lia.
    + by apply ram_write_Ok.
  - unfold CPU.ram_read, py_getitem. rewrite <- Hnone.
    destruct (py_index (length (ram s)) a) as [k|] eqn:Hk.
    + apply py_index_Some in Hk as [Hk _].
      apply lookup_lt_is_Some_2 in Hk as [x ->].
      split; [intros (e & s' & ?); done | done].
    + split; [done | intros _; eauto].
  - unfold CPU.ram_write, py_setitem. rewrite <- Hnone.
    destruct (py_index (length (ram s)) a) as [k|] eqn:Hk.
    + split; [intros (e & s' & ?); done | done].
    + split; [done | intros _; eauto].
  - unfold CPU.ram_read. intros e s'.
    destruct (py_getitem (ram s) a); [done|]. by intros [= <- <-].
  - unfold CPU.ram_write. intros e s'.
    destruct (py_setitem (ram s) a v); [done|]. by intros [= <- <-].
Qed.

(** ** What all the code leaves alone

    A property of the state that survives the four kinds of update the
    code makes (one memory cell, one register, the program counter, one
    more item printed) survives every method, the loader and the loop. *)

Section Frame.

Variable I : cpu → Prop.
Hypothesis I_ram : ∀ s k v, I s → I (with_ram (<[k := v]> (ram s)) s).
Hypothesis I_reg : ∀ s k v, I s → I (with_reg (<[k := v]> (reg s)) s).
Hypothesis I_pc : ∀ s p, I s → I (with_pc p s).
Hypothesis I_print : ∀ s x, I s → I (with_stdout (stdout s ++ [x]) s).

(** [m] keeps [I], whether it returns or raises. *)
Local Abbreviation keeps m := (hoare I m (λ _, I) I).

Lemma keeps_bind {A B} (m : M A) (f : A → M B) :
  keeps m → (∀ v, keeps (f v)) → keeps (m ≫= f).
Proof. intros Hm Hf. by apply (hoare_bind _ _ _ (λ _, I)). Qed.

Lemma keeps_ret {A} (v : A) : keeps (mret v).
Proof. by intros s H. Qed.

Lemma keeps_raise {A} (e : exn) : keeps (raise e : M A).
Proof. by intros s H. Qed.

Lemma keeps_get_pc : keeps get_pc.
Proof. by intros s H. Qed.

Lemma keeps_set_pc p : keeps (set_pc p).
Proof. intros s H. by apply I_pc. Qed.

Lemma keeps_print x : keeps (print x).
Proof. intros s H. by apply I_print. Qed.

Lemma keeps_reg_get a : keeps (reg_get a).
Proof. intros s H. unfold reg_get. by destruct (py_getitem (reg s) a). Qed.

Lemma keeps_reg_set a v : keeps (reg_set a v).
Proof.
  intros s H. unfold reg_set, py_setitem.
  destruct (py_index (length (reg s)) a); [by apply I_reg | done].
Qed.

Lemma keeps_ram_read a : keeps (CPU.ram_read a).
Proof. intros s H. unfold CPU.ram_read. by destruct (py_getitem (ram s) a). Qed.

Lemma keeps_ram_write a v : keeps (CPU.ram_write a v).
Proof.
  intros s H. unfold CPU.ram_write, py_setitem.
  destruct (py_index (length (ram s)) a); [by apply I_ram | done].
Qed.

Lemma keeps_lookup_handler op : keeps (lookup_handler op).
Proof.
  intros s H. unfold lookup_handler. by destruct (dispatch_table s !! op).
Qed.

Lemma keeps_pc_add n : keeps (pc_add n).
Proof. apply keeps_bind; [apply keeps_get_pc | intros p; apply keeps_set_pc]. Qed.

Ltac keeps_one :=
  first
    [ apply keeps_get_pc | apply keeps_set_pc | apply keeps_print
    | apply keeps_reg_get | apply keeps_reg_set
    | apply keeps_ram_read | apply keeps_ram_write
    | apply keeps_lookup_handler | apply keeps_pc_add
    | apply keeps_ret | apply keeps_raise
    | apply keeps_bind; [|intros ?] ].

Ltac keeps_all := repeat keeps_one.

Lemma keeps_alu op a b : keeps (CPU.alu op a b).
Proof.
  intros s H. pose proof (alu_effect op a b s s eq_refl) as He.
  destruct (CPU.alu op a b s) as [[] s'|e s'].
  - destruct He as (k & v & _ & ->). by apply I_reg.
  - by subst s'.
Qed.

Lemma keeps_push a : keeps (CPU.push a).
Proof.
  unfold CPU.push, CPU.stack_pointer, CPU.set_stack_pointer. keeps_all.
Qed.

Lemma keeps_pop a : keeps (CPU.pop a).
Proof.
  unfold CPU.pop, CPU.stack_pointer, CPU.set_stack_pointer. keeps_all.
Qed.

Lemma keeps_call a : keeps (CPU.call a).
Proof.
  unfold CPU.call, CPU.stack_pointer, CPU.set_stack_pointer. keeps_all.
Qed.

Lemma keeps_ret_handler : keeps CPU.ret.
Proof.
  unfold CPU.ret, CPU.stack_pointer, CPU.set_stack_pointer. keeps_all.
Qed.

Lemma keeps_invoke h args : keeps (invoke h args).
Proof.
  destruct h, args as [|a [|v [|? ?]]]; simpl;
    first [ apply keeps_raise | apply keeps_call | apply keeps_push
          | apply keeps_pop | apply keeps_ret_handler
          | unfold CPU.ldi, CPU.prn, CPU.hlt; keeps_all ].
Qed.

Lemma keeps_run_iteration ir : keeps (run_iteration ir).
Proof.
  unfold run_iteration. cbv zeta.
  apply keeps_bind; [|intros ?; apply keeps_bind; [|intros ?]].
  - destruct (truthy (is_alu_operation ir)).
    + destruct (num_operands ir =? 1); [|destruct (num_operands ir =? 2)];
        repeat first [ apply keeps_alu | keeps_one ].
    + destruct (num_operands ir =? 0);
        [|destruct (num_operands ir =? 1); [|destruct (num_operands ir =? 2)]];
        repeat first [ apply keeps_invoke | keeps_one ].
  - destruct (negb (truthy (sets_pc ir))); keeps_all.
  - keeps_all.
Qed.

Lemma keeps_load_from program address :
  keeps (Loader.load_from program address).
Proof.
  revert address. induction program as [|line rest IH]; intros address.
  - apply keeps_ret.
  - simpl. destruct (int2 (before_hash line)); [|apply IH].
    apply keeps_bind; [apply keeps_ram_write | intros ?; apply IH].
Qed.

Lemma keeps_passes n : keeps (passes n).
Proof.
  unfold passes. apply keeps_bind; [apply keeps_get_pc | intros p].
  apply keeps_bind; [apply keeps_ram_read | intros ir].
  induction n as [|n IH]; [apply keeps_ret|].
  simpl. apply keeps_bind; [apply IH | intros ?; apply keeps_run_iteration].
Qed.

End Frame.

(** ** The loader *)

Lemma with_ram_same s : with_ram (ram s) s = s.
Proof. by destruct s. Qed.

Lemma load_from_result program n s :
  (n ≤ length (ram s))%nat →
  Loader.load_from program (Z.of_nat n) s
  = if decide (n + length (parsed program) ≤ length (ram s))%nat
    then Ok tt (with_ram (take n (ram s) ++ parsed program
                          ++ drop (n + length (parsed program)) (ram s)) s)
    else Raise IndexError
           (with_ram (take n (ram s)
                      ++ take (length (ram s) - n) (parsed program)) s).
Proof.
  revert n s. induction program as [|line rest IH]; intros n s Hn.
  - simpl. rewrite decide_True by lia.
    rewrite Nat.add_0_r, take_drop, with_ram_same. reflexivity.
  - cbn [Loader.load_from].
    destruct (int2 (before_hash line)) as [v|] eqn:Hv.
    2:{ replace (parsed (line :: rest)) with (parsed rest)
          by (unfold parsed; simpl; by rewrite Hv).
        by apply IH. }
    replace (parsed (line :: rest)) with (v :: parsed rest)
      by (unfold parsed; simpl; by rewrite Hv).
    set (vs := parsed rest) in *. clearbody vs. cbn [length].
    destruct (decide (n < length (ram s))%nat) as [Hlt|Hge].
    + assert (Hk : py_index (length (ram s)) (Z.of_nat n) = Some n).
      { rewrite py_index_nonneg by lia. by rewrite Nat2Z.id. }
      rewrite (bind_Ok _ _ s tt _ (ram_write_Ok s _ v n Hk)).
      replace (Z.of_nat n + 1) with (Z.of_nat (S n)) by lia.
      rewrite IH by (simpl; rewrite length_insert; lia).
      simpl. rewrite length_insert.
      assert (Ht : take (S n) (<[n := v]> (ram s)) = take n (ram s) ++ [v]).
      { rewrite (take_S_r _ n v) by by apply list_lookup_insert_eq.
        by rewrite take_insert_ge. }
      destruct (decide (S (n + length vs) ≤ length (ram s))%nat);
        [rewrite decide_True by lia | rewrite decide_False by lia].
      * rewrite Ht, drop_insert_lt by lia. unfold with_ram. simpl.
        rewrite <- app_assoc. simpl.
        by replace (n + S (length vs))%nat with (S (n + length vs)) by lia.
      * rewrite Ht. unfold with_ram. simpl. rewrite <- app_assoc. simpl.
        by replace (length (ram s) - n)%nat
          with (S (length (ram s) - S n)) by lia.
    + rewrite decide_False by lia.
      assert (Hk : py_index (length (ram s)) (Z.of_nat n) = None).
      { apply py_index_None. lia. }
      rewrite (bind_Raise _ _ s IndexError s).
      2:{ unfold CPU.ram_write, py_setitem. by rewrite Hk. }
      replace (length (ram s) - n)%nat with 0%nat by lia.
      rewrite take_ge by lia. simpl.
      by rewrite app_nil_r, with_ram_same.
Qed.

(** X1. [load] writes the values it parses to consecutive cells from
    address 0 and leaves everything else as it was: the cells beyond the
    program keep their previous content (memory is not cleared), and
    registers, program counter and output are untouched. *)
Theorem load_stores_sequentially (program : list string) (s : cpu) :
  (length (parsed program) ≤ length (ram s))%nat →
  Loader.load program s
  = Ok tt (with_ram (parsed program
                     ++ drop (length (parsed program)) (ram s)) s).
Proof.
  intros H. unfold Loader.load. change 0 with (Z.of_nat 0).
  rewrite (load_from_result program 0 s) by lia.
  by rewrite decide_True by lia.
Qed.

(** X2. A program with more values than memory has cells is not rejected
    up front: [load] overwrites the whole memory with the first values and
    then raises [IndexError] at the first value that does not fit. *)
Theorem load_program_too_large (program : list string) (s : cpu) :
  (length (ram s) < length (parsed program))%nat →
  Loader.load program s
  = Raise IndexError
      (with_ram (take (length (ram s)) (parsed program)) s).
Proof.
  intros H. unfold Loader.load. change 0 with (Z.of_nat 0).
  rewrite (load_from_result program 0 s) by lia.
  rewrite decide_False by lia. simpl. by rewrite Nat.sub_0_r.
Qed.

Lemma load_from_skips l1 line l2 address s :
  int2 (before_hash line) = None →
  Loader.load_from (l1 ++ line :: l2) address s
  = Loader.load_from (l1 ++ l2) address s.
Proof.
  intros Hnone. revert address s.
  induction l1 as [|l rest IH]; intros address s; simpl.
  - by rewrite Hnone.
  - destruct (int2 (before_hash l)); [|apply IH].
    unfold mbind, M_bind. destruct (CPU.ram_write address z s); [apply IH | done].
Qed.

(** X3. A line that does not parse as a binary number is skipped without
    any error or trace: the program loads as if the line were absent. *)
Theorem load_skips_malformed_line (l1 l2 : list string) (line : string)
    (s : cpu) :
  int2 (before_hash line) = None →
  Loader.load (l1 ++ line :: l2) s = Loader.load (l1 ++ l2) s.
Proof. intros H. unfold Loader.load. by apply load_from_skips. Qed.

Lemma lstrip_all_space t : all_space t = true → lstrip t = EmptyString.
Proof.
  induction t as [|c t IH]; [done|]. simpl.
  destruct (is_space c); [apply IH | done].
Qed.

Lemma int2_all_space t : all_space t = true → int2 t = None.
Proof. intros H. unfold int2. by rewrite (lstrip_all_space t H). Qed.

(** A blank text is white space all through, or has one of the separators
    28 to 31 after its leading white space, where no number can start. *)
Lemma int2_all_blank t : all_blank t = true → int2 t = None.
Proof.
  unfold int2. induction t as [|c t IH]; [done|].
  intros H. apply andb_true_iff in H as [Hc Ht].
  cbn [lstrip]. destruct (is_space c) eqn:Es; [by apply IH|].
  destruct c as [[] [] [] [] [] [] [] []]; by vm_compute in Hc, Es.
Qed.

(** X4. Blank lines and lines holding only a comment are skipped: when the
    text before the first [#] is empty or made of the characters 9 to 13
    and 28 to 32 (white space and the four separators), the program loads
    as if the line were absent. *)
Theorem load_skips_blank_and_comment_lines (l1 l2 : list string)
    (line : string) (s : cpu) :
  all_blank (before_hash line) = true →
  Loader.load (l1 ++ line :: l2) s = Loader.load (l1 ++ l2) s.
Proof.
  intros H. unfold Loader.load. apply load_from_skips. by apply int2_all_blank.
Qed.

Lemma before_hash_comment a c :
  before_hash (String.append a (String "#" c)) = before_hash a.
Proof.
  induction a as [|x a IH]; simpl; [done|].
  destruct (Ascii.eqb x "#"); [done | by rewrite IH].
Qed.

Lemma load_from_ext l1 l2 address s :
  Forall2 (λ x y, before_hash x = before_hash y) l1 l2 →
  Loader.load_from l1 address s = Loader.load_from l2 address s.
Proof.
  intros H. revert address s.
  induction H as [|x y l1 l2 Hxy _ IH]; intros address s; [done|].
  simpl. rewrite Hxy. destruct (int2 (before_hash y)); [|apply IH].
  unfold mbind, M_bind. destruct (CPU.ram_write address z s); [apply IH | done].
Qed.

(** X5. Whatever follows the first [#] on a line is a comment: it has no
    effect on what is loaded. *)
Theorem load_ignores_comments (l1 l2 : list string) (code comment : string)
    (s : cpu) :
  Loader.load (l1 ++ String.append code (String "#" comment) :: l2) s
  = Loader.load (l1 ++ code :: l2) s.
Proof.
  unfold Loader.load. apply load_from_ext.
  apply Forall2_app; [by apply Forall_Forall2_diag, Forall_true|].
  constructor; [apply before_hash_comment|].
  by apply Forall_Forall2_diag, Forall_true.
Qed.

(** ** What never changes while the machine runs *)

Lemma kept_at_end {A} (I : cpu → Prop) (m : M A) s :
  hoare I m (λ _, I) I → I s → I (final_state (m s)).
Proof. intros H Hs. specialize (H s Hs). by destruct (m s). Qed.

Lemma sized_ram s k v : sized s → sized (with_ram (<[k := v]> (ram s)) s).
Proof. intros [? ?]. split; simpl; [by rewrite length_insert | done]. Qed.

Lemma sized_reg s k v : sized s → sized (with_reg (<[k := v]> (reg s)) s).
Proof. intros [? ?]. split; simpl; [done | by rewrite length_insert]. Qed.

(** X6. Memory keeps its 256 cells and the register file its 8 registers:
    the loader, every handler, the ALU and any number of passes of the
    loop only ever replace an element in place, whether they return or
    raise. *)
Theorem memory_and_registers_keep_size (s : cpu) (program : list string)
    (n : nat) (h : handler) (args : list Z) (op a : Z) (b : option Z) :
  sized s →
  sized (final_state (Loader.load program s))
  ∧ sized (final_state (passes n s))
  ∧ sized (final_state (invoke h args s))
  ∧ sized (final_state (CPU.alu op a b s)).
Proof.
  intros Hs.
  assert (Hpc : ∀ t p, sized t → sized (with_pc p t)) by done.
  assert (Hout : ∀ t x, sized t → sized (with_stdout (stdout t ++ [x]) t))
    by done.
  split; [|split; [|split]]; (apply kept_at_end; [|done]).
  - apply keeps_load_from. apply sized_ram.
  - apply keeps_passes; auto using sized_ram, sized_reg.
  - apply keeps_invoke; auto using sized_ram, sized_reg.
  - apply keeps_alu. apply sized_reg.
Qed.

(** X7. The dispatch table and the [running] flag set by the constructor
    are never written again: after loading any program and any number of
    passes of the loop they are what they were. *)
Theorem dispatch_table_and_running_fixed (s : cpu) (program : list string)
    (n : nat) :
  dispatch_table (final_state (passes n (final_state (Loader.load program s))))
  = dispatch_table s
  ∧ running (final_state (passes n (final_state (Loader.load program s))))
    = running s.
Proof.
  set (I := λ t, dispatch_table t = dispatch_table s ∧ running t = running s).
  assert (H1 : I (final_state (Loader.load program s))).
  { apply kept_at_end; [|done]. by apply keeps_load_from. }
  apply (kept_at_end I (passes n)); [|exact H1]. by apply keeps_passes.
Qed.

(** X8. Output is only ever appended to: after any number of passes of the
    loop, what had been printed before is a prefix of what has been
    printed. *)
Theorem output_only_grows (s : cpu) (n : nat) :
  ∃ more, stdout (final_state (passes n s)) = stdout s ++ more.
Proof.
  set (I := λ t, ∃ more, stdout t = stdout s ++ more).
  apply (kept_at_end I (passes n)); [|exists []; by rewrite app_nil_r].
  apply keeps_passes; unfold I; try done.
  intros t x [more Hm]. exists (more ++ [x]). simpl.
  by rewrite Hm, app_assoc.
Qed.

(** ** Memory cells and the stack pointer *)

(** X9. A value written to a valid address is the value read back from it,
    every cell at another index reads as before, and registers, program
    counter and output are untouched.  Valid addresses are those from
    minus the memory size up to the memory size minus one. *)
Theorem ram_write_then_read (s : cpu) (a v : Z) :
  - Z.of_nat (length (ram s)) ≤ a < Z.of_nat (length (ram s)) →
  ∃ k s',
    py_index (length (ram s)) a = Some k
    ∧ CPU.ram_write a v s = Ok tt s'
    ∧ CPU.ram_read a s' = Ok v s'
    ∧ (∀ b j, py_index (length (ram s)) b = Some j → j ≠ k →
              CPU.ram_read b s' = match CPU.ram_read b s with
                                  | Ok x _ => Ok x s'
                                  | Raise e _ => Raise e s'
                                  end)
    ∧ reg s' = reg s ∧ pc s' = pc s ∧ stdout s' = stdout s.
Proof.
  intros Ha.
  destruct (py_index (length (ram s)) a) as [k|] eqn:Hk.
  2:{ apply py_index_None in Hk. lia. }
  exists k, (with_ram (<[k := v]> (ram s)) s).
  split; [done|]. split; [by apply ram_write_Ok|].
  split; [apply ram_read_Ok; simpl; by apply py_getitem_insert|].
  split; [|done].
  intros b j Hj Hne. unfold CPU.ram_read, py_getitem. simpl.
  rewrite length_insert, Hj, list_lookup_insert_ne by done.
  by destruct (ram s !! j).
Qed.

(** X10. The stack pointer is register 7 seen through a mask: setting it
    to any integer stores that integer modulo 256 in register 7, which is
    what the getter then returns, and no other register changes. *)
Theorem stack_pointer_set_then_get (s : cpu) (value : Z) :
  length (reg s) = 8%nat →
  (CPU.set_stack_pointer value ≫= λ _, CPU.stack_pointer) s
  = Ok (value mod 256) (with_reg (<[7%nat := value mod 256]> (reg s)) s)
  ∧ 0 ≤ value mod 256 ≤ 255.
Proof.
  intros Hr. split; [|pose proof (Z.mod_pos_bound value 256); lia].
  unfold CPU.set_stack_pointer, CPU.stack_pointer.
  rewrite land_255_mod.
  erewrite bind_Ok; [|apply reg_set_Ok; by apply py_index_reg7].
  apply reg_get_Ok. simpl.
  rewrite (py_getitem_index _ 7 7%nat) by (rewrite length_insert; by apply py_index_reg7).
  apply list_lookup_insert_eq. lia.
Qed.

(** ** What the ALU computes *)

Lemma with_reg_same s : with_reg (reg s) s = s.
Proof. by destruct s. Qed.

(** The mask at the end of [alu], after a branch that wrote [v]. *)
Lemma alu_write_then_mask s a k v :
  py_index (length (reg s)) a = Some k →
  (reg_set a v ≫= λ _, x ← reg_get a; reg_set a (Z.land x 0xff)) s
  = Ok tt (with_reg (<[k := v mod 256]> (reg s)) s).
Proof.
  intros Hk. rewrite (bind_Ok _ _ s tt _ (reg_set_Ok s a v k Hk)).
  rewrite (bind_Ok (reg_get a) _ _ v _)
    by (apply reg_get_Ok; by apply py_getitem_insert).
  rewrite (reg_set_Ok _ a _ k) by (simpl; by rewrite length_insert).
  unfold with_reg. simpl. by rewrite list_insert_insert_eq, land_255_mod.
Qed.

Lemma alu_binary_branch s a b k x y (f : Z → Z → Z) :
  py_index (length (reg s)) a = Some k → reg s !! k = Some x →
  py_getitem (reg s) b = Some y →
  ((x ← reg_get a; y ← reg_get_opt (Some b); reg_set a (f x y))
     ≫= λ _, x ← reg_get a; reg_set a (Z.land x 0xff)) s
  = Ok tt (with_reg (<[k := f x y mod 256]> (reg s)) s).
Proof.
  intros Hk Hx Hy.
  assert (Ha : reg_get a s = Ok x s)
    by (apply reg_get_Ok; by rewrite (py_getitem_index _ _ _ Hk)).
  assert (Hb : reg_get_opt (Some b) s = Ok y s) by by apply reg_get_Ok.
  rewrite <- (alu_write_then_mask s a k (f x y) Hk).
  unfold mbind, M_bind. by rewrite Ha, Hb.
Qed.

Lemma alu_unary_branch s a k x (f : Z → Z) :
  py_index (length (reg s)) a = Some k → reg s !! k = Some x →
  ((x ← reg_get a; reg_set a (f x))
     ≫= λ _, x ← reg_get a; reg_set a (Z.land x 0xff)) s
  = Ok tt (with_reg (<[k := f x mod 256]> (reg s)) s).
Proof.
  intros Hk Hx.
  assert (Ha : reg_get a s = Ok x s)
    by (apply reg_get_Ok; by rewrite (py_getitem_index _ _ _ Hk)).
  rewrite <- (alu_write_then_mask s a k (f x) Hk).
  unfold mbind, M_bind. by rewrite Ha.
Qed.

(** Choosing the branch of [alu] for a given opcode constant. *)
Ltac alu_select :=
  unfold CPU.alu;
  repeat match goal with
         | |- context [Z.eqb ?c ?d] =>
             is_const c; is_const d;
             let r := eval vm_compute in (Z.eqb c d) in
             change (Z.eqb c d) with r
         end;
  cbv iota.

(** X11. [ADD], [SUB] and [MUL] wrap around: register [a] receives the
    sum, difference or product of the two registers modulo 256, and
    nothing else changes. *)
Theorem alu_add_sub_mul_wrap (s : cpu) (a b x y : Z) (k : nat) :
  py_index (length (reg s)) a = Some k → reg s !! k = Some x →
  py_getitem (reg s) b = Some y →
  CPU.alu ADD a (Some b) s
    = Ok tt (with_reg (<[k := (x + y) mod 256]> (reg s)) s)
  ∧ CPU.alu SUB a (Some b) s
    = Ok tt (with_reg (<[k := (x - y) mod 256]> (reg s)) s)
  ∧ CPU.alu MUL a (Some b) s
    = Ok tt (with_reg (<[k := (x * y) mod 256]> (reg s)) s).
Proof.
  intros Hk Hx Hy. repeat split; alu_select.
  - by apply (alu_binary_branch s a b k x y Z.add).
  - by apply (alu_binary_branch s a b k x y Z.sub).
  - by apply (alu_binary_branch s a b k x y Z.mul).
Qed.

(** X12. [INC] and [DEC] take one operand and wrap around: an 8-bit
    register holding 255 is 0 after [INC], one holding 0 is 255 after
    [DEC], and otherwise the value moves by one. *)
Theorem alu_inc_dec_wrap (s : cpu) (a x : Z) (k : nat) :
  py_index (length (reg s)) a = Some k → reg s !! k = Some x →
  0 ≤ x ≤ 255 →
  CPU.alu INC a None s
    = Ok tt (with_reg (<[k := if x =? 255 then 0 else x + 1]> (reg s)) s)
  ∧ CPU.alu DEC a None s
    = Ok tt (with_reg (<[k := if x =? 0 then 255 else x - 1]> (reg s)) s).
Proof.
  intros Hk Hx Hb. split; alu_select.
  - rewrite (alu_unary_branch s a k x (λ x, x + 1) Hk Hx).
    destruct (Z.eqb_spec x 255) as [->|Hne]; [done|].
    by rewrite Z.mod_small by lia.
  - rewrite (alu_unary_branch s a k x (λ x, x - 1) Hk Hx).
    destruct (Z.eqb_spec x 0) as [->|Hne]; [done|].
    by rewrite Z.mod_small by lia.
Qed.

Lemma byte_mod (x : Z) : 0 ≤ x ≤ 255 → x mod 256 = x.
Proof. intros H. apply Z.mod_small. lia. Qed.

Lemma bitwise_mod (f : bool → bool → bool) (op : Z → Z → Z) (x y : Z) :
  (∀ a b n, Z.testbit (op a b) n = f (Z.testbit a n) (Z.testbit b n)) →
  f false false = false →
  0 ≤ x ≤ 255 → 0 ≤ y ≤ 255 → op x y mod 256 = op x y.
Proof.
  intros Hop Hf Hx Hy.
  rewrite <- (land_255_mod (op x y)). apply Z.bits_inj'. intros n Hn.
  rewrite Z.land_spec, Hop.
  rewrite <- (byte_mod x Hx), <- (byte_mod y Hy), <- !land_255_mod.
  rewrite !Z.land_spec.
  destruct (Z.testbit 0xff n); [by rewrite !andb_true_r|].
  by rewrite !andb_false_r, Hf.
Qed.

(** X13. On 8-bit registers the bitwise operations need no mask: [AND],
    [OR] and [XOR] store the bitwise combination of the two registers and
    [NOT] stores the 8-bit complement, 255 minus the value. *)
Theorem alu_bitwise (s : cpu) (a b x y : Z) (k : nat) :
  py_index (length (reg s)) a = Some k → reg s !! k = Some x →
  py_getitem (reg s) b = Some y →
  0 ≤ x ≤ 255 → 0 ≤ y ≤ 255 →
  CPU.alu AND a (Some b) s = Ok tt (with_reg (<[k := Z.land x y]> (reg s)) s)
  ∧ CPU.alu OR a (Some b) s = Ok tt (with_reg (<[k := Z.lor x y]> (reg s)) s)
  ∧ CPU.alu XOR a (Some b) s = Ok tt (with_reg (<[k := Z.lxor x y]> (reg s)) s)
  ∧ CPU.alu NOT a None s = Ok tt (with_reg (<[k := 255 - x]> (reg s)) s).
Proof.
  intros Hk Hx Hy Bx By. repeat split; alu_select.
  - rewrite (alu_binary_branch s a b k x y Z.land Hk Hx Hy).
    by rewrite (bitwise_mod andb Z.land) by (done || apply Z.land_spec).
  - rewrite (alu_binary_branch s a b k x y Z.lor Hk Hx Hy).
    by rewrite (bitwise_mod orb Z.lor) by (done || apply Z.lor_spec).
  - rewrite (alu_binary_branch s a b k x y Z.lxor Hk Hx Hy).
    by rewrite (bitwise_mod xorb Z.lxor) by (done || apply Z.lxor_spec).
  - rewrite (alu_unary_branch s a k x Z.lnot Hk Hx).
    replace (Z.lnot x) with ((255 - x) + (-1) * 256)
      by (unfold Z.lnot; lia).
    by rewrite Z_mod_plus_full, Z.mod_small by lia.
Qed.

Lemma alu_shift_branch s a b k x y (f : Z → Z → Z) :
  py_index (length (reg s)) a = Some k → reg s !! k = Some x →
  py_getitem (reg s) b = Some y → 0 ≤ y →
  ((x ← reg_get a; y ← reg_get_opt (Some b);
    if y <? 0 then raise (ValueError "negative shift count")
    else reg_set a (f x y))
     ≫= λ _, x ← reg_get a; reg_set a (Z.land x 0xff)) s
  = Ok tt (with_reg (<[k := f x y mod 256]> (reg s)) s).
Proof.
  intros Hk Hx Hy Hpos.
  assert (Ha : reg_get a s = Ok x s)
    by (apply reg_get_Ok; by rewrite (py_getitem_index _ _ _ Hk)).
  assert (Hb : reg_get_opt (Some b) s = Ok y s) by by apply reg_get_Ok.
  rewrite <- (alu_write_then_mask s a k (f x y) Hk).
  unfold mbind, M_bind. rewrite Ha. cbv beta iota. rewrite Hb. cbv beta iota.
  by replace (y <? 0) with false by (symmetry; apply Z.ltb_ge; lia).
Qed.

Lemma alu_shl_branch s a b k x y :
  py_index (length (reg s)) a = Some k → reg s !! k = Some x →
  py_getitem (reg s) b = Some y → 0 ≤ y →
  ((x ← reg_get a; y ← reg_get_opt (Some b);
    if y <? 0 then raise (ValueError "negative shift count")
    else match shift_refused x y with
         | Some e => raise (shift_exn e)
         | None => reg_set a (Z.shiftl x y)
         end)
     ≫= λ _, x ← reg_get a; reg_set a (Z.land x 0xff)) s
  = match shift_refused x y with
    | Some e => Raise (shift_exn e) s
    | None => Ok tt (with_reg (<[k := Z.shiftl x y mod 256]> (reg s)) s)
    end.
Proof.
  intros Hk Hx Hy Hpos.
  assert (Ha : reg_get a s = Ok x s)
    by (apply reg_get_Ok; by rewrite (py_getitem_index _ _ _ Hk)).
  assert (Hb : reg_get_opt (Some b) s = Ok y s) by by apply reg_get_Ok.
  destruct (shift_refused x y) as [e|] eqn:Hh.
  - unfold mbind, M_bind. rewrite Ha. cbv beta iota. rewrite Hb. cbv beta iota.
    replace (y <? 0) with false by (symmetry; apply Z.ltb_ge; lia).
    by rewrite Hh.
  - rewrite <- (alu_write_then_mask s a k (Z.shiftl x y) Hk).
    unfold mbind, M_bind. rewrite Ha. cbv beta iota. rewrite Hb. cbv beta iota.
    replace (y <? 0) with false by (symmetry; apply Z.ltb_ge; lia).
    by rewrite Hh.
Qed.

(** X14. Shifts, for a shift count [y] that is not negative and an 8-bit
    register [x].  [SHR] stores [x] divided by 2 to the [y].  [SHL] stores
    [x] times 2 to the [y], modulo 256, when the host builds the shifted
    value; when the host refuses it (the count being too large for it),
    [SHL] raises the host's [OverflowError] or [MemoryError] and changes
    nothing.  Both results are 0 once [y] is 8 or more. *)
Theorem alu_shifts (s : cpu) (a b x y : Z) (k : nat) :
  py_index (length (reg s)) a = Some k → reg s !! k = Some x →
  py_getitem (reg s) b = Some y →
  0 ≤ x ≤ 255 → 0 ≤ y →
  (shift_refused x y = None →
   CPU.alu SHL a (Some b) s
   = Ok tt (with_reg (<[k := (x * 2 ^ y) mod 256]> (reg s)) s))
  ∧ (∀ e, shift_refused x y = Some e →
          CPU.alu SHL a (Some b) s = Raise (shift_exn e) s)
  ∧ CPU.alu SHR a (Some b) s
    = Ok tt (with_reg (<[k := x / 2 ^ y]> (reg s)) s)
  ∧ (8 ≤ y → (x * 2 ^ y) mod 256 = 0 ∧ x / 2 ^ y = 0).
Proof.
  intros Hk Hx Hy Bx By.
  assert (Hpow : 0 < 2 ^ y) by (apply Z.pow_pos_nonneg; lia).
  assert (Hq : 0 ≤ x / 2 ^ y ≤ 255).
  { split; [apply Z.div_pos; lia|].
    apply Z.le_trans with x; [|lia].
    apply Z.div_le_upper_bound; [lia|]. nia. }
  split; [|split; [|split]].
  - intros Hh. alu_select.
    rewrite (alu_shl_branch s a b k x y Hk Hx Hy By), Hh.
    by rewrite Z.shiftl_mul_pow2.
  - intros e Hh. alu_select.
    by rewrite (alu_shl_branch s a b k x y Hk Hx Hy By), Hh.
  - alu_select.
    rewrite (alu_shift_branch s a b k x y Z.shiftr Hk Hx Hy By).
    by rewrite Z.shiftr_div_pow2, (byte_mod _ Hq).
  - intros H8. split.
    + replace y with (8 + (y - 8)) by lia.
      rewrite Z.pow_add_r by lia. change (2 ^ 8) with 256.
      replace (x * (256 * 2 ^ (y - 8))) with (x * 2 ^ (y - 8) * 256) by lia.
      apply Z_mod_mult.
    + apply Z.div_small. split; [lia|].
      apply Z.lt_le_trans with (2 ^ 8); [simpl; lia|].
      apply Z.pow_le_mono_r; lia.
Qed.

(** X15. With a divisor register that is not zero, [DIV] stores the
    quotient and [MOD] the remainder of the two 8-bit registers, rounding
    toward zero as both are not negative: the dividend is the divisor
    times the quotient plus the remainder, and the remainder is smaller
    than the divisor. *)
Theorem alu_div_mod (s : cpu) (a b x y : Z) (k : nat) :
  py_index (length (reg s)) a = Some k → reg s !! k = Some x →
  py_getitem (reg s) b = Some y →
  0 ≤ x ≤ 255 → 0 < y ≤ 255 →
  CPU.alu DIV a (Some b) s = Ok tt (with_reg (<[k := x / y]> (reg s)) s)
  ∧ CPU.alu MOD a (Some b) s = Ok tt (with_reg (<[k := x mod y]> (reg s)) s)
  ∧ x = y * (x / y) + x mod y ∧ 0 ≤ x mod y < y ∧ 0 ≤ x / y ≤ x.
Proof.
  intros Hk Hx Hy Bx By.
  assert (Ha : reg_get a s = Ok x s)
    by (apply reg_get_Ok; by rewrite (py_getitem_index _ _ _ Hk)).
  assert (Hb : reg_get_opt (Some b) s = Ok y s) by by apply reg_get_Ok.
  assert (Hy0 : (y =? 0) = false) by (apply Z.eqb_neq; lia).
  pose proof (Z.mod_pos_bound x y ltac:(lia)) as Hr.
  assert (Hq : 0 ≤ x / y ≤ x).
  { split; [apply Z.div_pos; lia|]. apply Z.div_le_upper_bound; [lia|]. nia. }
  split; [|split; [|split; [apply Z.div_mod; lia | done]]].
  - alu_select.
    rewrite <- (byte_mod (x / y)) by lia.
    rewrite <- (alu_write_then_mask s a k (x / y) Hk).
    unfold mbind, M_bind. rewrite Hb. cbv beta iota. rewrite Hy0.
    unfold mret, M_ret. cbv beta iota. rewrite Ha. cbv beta iota.
    by rewrite Hb.
  - alu_select.
    rewrite <- (byte_mod (x mod y)) by lia.
    rewrite <- (alu_write_then_mask s a k (x mod y) Hk).
    unfold mbind, M_bind. rewrite Ha. cbv beta iota. rewrite Hb.
    cbv beta iota. by rewrite Hy0.
Qed.

(** X16. [CMP] compares nothing: whatever its second operand (it is never
    read, so it may be missing or no register at all), an 8-bit register
    [a] and the rest of the state are exactly as before; no flag is
    recorded anywhere. *)
Theorem alu_cmp_does_nothing (s : cpu) (a x : Z) (b : option Z) :
  py_getitem (reg s) a = Some x → 0 ≤ x ≤ 255 →
  CPU.alu CMP a b s = Ok tt s.
Proof.
  intros Hx Bx. alu_select.
  destruct (py_getitem_Some _ _ _ Hx) as (k & Hk & Hkx).
  rewrite (bind_Ok (mret tt) _ s tt s) by reflexivity.
  rewrite (bind_Ok (reg_get a) _ s x s) by by apply reg_get_Ok.
  rewrite (reg_set_Ok s a _ k Hk), land_255_mod, byte_mod by done.
  by rewrite list_insert_id, with_reg_same.
Qed.

(** X17. An opcode that is none of the fourteen ALU operations makes [alu]
    raise [Exception("Unsupported ALU Operation")] before it reads or
    writes anything. *)
Theorem alu_unsupported_operation (s : cpu) (op a : Z) (b : option Z) :
  op ∉ [ADD; AND; CMP; DEC; DIV; INC; MOD; MUL; NOT; OR; SHL; SHR; SUB; XOR] →
  CPU.alu op a b s = Raise (Exception "Unsupported ALU Operation") s.
Proof.
  intros Hop. unfold CPU.alu.
  repeat match goal with
         | |- context [op =? ?c] =>
             destruct (Z.eqb_spec op c) as [->|_];
             [exfalso; apply Hop; set_solver|]
         end.
  by apply bind_Raise.
Qed.

(** X18. [alu] is all or nothing: whenever it raises, for whatever reason
    (a register index out of range, a missing operand, a zero divisor, a
    negative shift count, an unknown opcode), the state is exactly the
    state before the call. *)
Theorem alu_raise_leaves_state (s s' : cpu) (op a : Z) (b : option Z)
    (e : exn) :
  CPU.alu op a b s = Raise e s' → s' = s.
Proof.
  intros H. pose proof (alu_effect op a b s s eq_refl) as He.
  by rewrite H in He.
Qed.

(** X19. The two-operand operations called without their second operand
    ([b] left at its default [None]) raise [TypeError] and change nothing. *)
Theorem alu_missing_operand (s : cpu) (op a x : Z) :
  op ∈ [ADD; AND; DIV; MOD; MUL; OR; SHL; SHR; SUB; XOR] →
  py_getitem (reg s) a = Some x →
  CPU.alu op a None s = Raise TypeError s.
Proof.
  intros Hop Hx.
  assert (Ha : reg_get a s = Ok x s) by by apply reg_get_Ok.
  repeat (apply elem_of_cons in Hop as [->|Hop];
          [alu_select; apply bind_Raise;
           first [ reflexivity
                 | by rewrite (bind_Ok (reg_get a) _ s x s Ha) ]|]).
  by apply elem_of_nil in Hop.
Qed.

(** ** More on the stack *)

(** X20. [pop(b)] followed by [push(b)], [b] not being register 7, only
    reads the top of the stack. When the stack pointer [sp] designates a
    cell (Python indexing: from -256 to 255), register [b] receives that
    cell's value, the stack pointer ends at [sp mod 256], and memory and
    every other register are as they were; so on an 8-bit stack pointer
    only register [b] changes. When it designates none, [pop] raises
    [IndexError] and nothing changes. *)
Theorem pop_then_push (s : cpu) (b sp : Z) (kb : nat) :
  sized s →
  reg s !! 7%nat = Some sp →
  py_index 8 b = Some kb → kb ≠ 7%nat →
  (∀ x, py_getitem (ram s) sp = Some x →
        (CPU.pop b ≫= λ _, CPU.push b) s
        = Ok tt (with_reg (<[7%nat := sp mod 256]> (<[kb := x]> (reg s))) s))
  ∧ (∀ x, 0 ≤ sp ≤ 255 → ram s !! Z.to_nat sp = Some x →
          (CPU.pop b ≫= λ _, CPU.push b) s
          = Ok tt (with_reg (<[kb := x]> (reg s)) s))
  ∧ (py_getitem (ram s) sp = None →
     (CPU.pop b ≫= λ _, CPU.push b) s = Raise IndexError s)
  ∧ (py_getitem (ram s) sp = None ↔ ¬ (-256 ≤ sp ≤ 255)).
Proof.
  intros [Hm Hr] Hsp Hkb Hne.
  assert (Hany : ∀ x, py_getitem (ram s) sp = Some x →
            (CPU.pop b ≫= λ _, CPU.push b) s
            = Ok tt (with_reg (<[7%nat := sp mod 256]> (<[kb := x]> (reg s))) s)).
  { intros x Hx.
    destruct (pop_any s b sp kb x Hr Hsp Hx Hkb) as (sp' & Hsp' & Hpop).
    rewrite list_lookup_insert_ne, Hsp in Hsp' by done. injection Hsp' as <-.
    rewrite (bind_Ok _ _ s tt _ Hpop).
    set (sp1 := Z.land (sp + 1) 0xff) in *.
    set (s1 := with_reg _ s).
    assert (Hkb8 : (kb < 8)%nat).
    { apply py_index_Some in Hkb as [? _]. lia. }
    apply py_getitem_Some in Hx as (k & Hk & Hcell). rewrite Hm in Hk.
    apply py_index_cell in Hk as ->.
    rewrite (push_Ok s1 b sp1 kb x).
    - unfold sp1. rewrite sp_up_down_mod. unfold s1, with_ram, with_reg. simpl.
      rewrite (list_insert_id (ram s)) by done.
      by rewrite list_insert_insert_eq.
    - done.
    - simpl. by rewrite !length_insert.
    - simpl. apply list_lookup_insert_eq. rewrite length_insert. lia.
    - done.
    - simpl. rewrite list_insert_insert_eq.
      rewrite list_lookup_insert_ne by done.
      apply list_lookup_insert_eq. lia. }
  split; [exact Hany|]. split; [|split].
  - intros x Bsp Hx. rewrite (Hany x) by by rewrite py_getitem_at_byte.
    rewrite Z.mod_small by lia.
    rewrite (list_insert_insert_ne _ 7 kb) by done.
    by rewrite (list_insert_id (reg s)) by done.
  - intros Hx. apply bind_Raise. by apply (pop_IndexError s b sp).
  - by apply py_getitem_ram_None.
Qed.

Lemma sp_down_differs (sp : Z) :
  0 ≤ sp ≤ 255 → Z.to_nat (Z.land (sp - 1) 0xff) ≠ Z.to_nat sp.
Proof.
  intros H. pose proof (land_255_range (sp - 1)) as Hr.
  rewrite land_255_mod in *.
  destruct (Z.eq_dec sp 0) as [->|Hne]; [by vm_compute|].
  rewrite Z.mod_small by lia. lia.
Qed.

(** X21. The stack is last-in first-out: after [push(a)], [push(b)],
    [pop(c)], [pop(d)], none of the four being register 7, register [d]
    holds what register [a] held, register [c] holds what register [b]
    held (when [c] and [d] are different registers), and the stack pointer,
    [sp] at the start, is at [sp mod 256]: back where it started when that
    was an 8-bit value, and only then. *)
Theorem stack_is_lifo (s : cpu) (a b c d sp : Z) (ka kb kc kd : nat) :
  sized s →
  reg s !! 7%nat = Some sp →
  py_index 8 a = Some ka → ka ≠ 7%nat →
  py_index 8 b = Some kb → kb ≠ 7%nat →
  py_index 8 c = Some kc → kc ≠ 7%nat →
  py_index 8 d = Some kd → kd ≠ 7%nat →
  ∃ s',
    (CPU.push a ≫= λ _, CPU.push b ≫= λ _, CPU.pop c ≫= λ _, CPU.pop d) s
    = Ok tt s'
    ∧ reg s' !! kd = reg s !! ka
    ∧ (kc ≠ kd → reg s' !! kc = reg s !! kb)
    ∧ reg s' !! 7%nat = Some (sp mod 256)
    ∧ (reg s' !! 7%nat = Some sp ↔ 0 ≤ sp ≤ 255).
Proof.
  intros [Hm Hr] Hsp Hka Hka7 Hkb Hkb7 Hkc Hkc7 Hkd Hkd7.
  assert (Hlt : ∀ i k, py_index 8 i = Some k → (k < 8)%nat).
  { intros i k H. apply py_index_Some in H as [? _]. lia. }
  destruct (lookup_lt_is_Some_2 (reg s) ka) as [va Hva];
    [rewrite Hr; by apply (Hlt a)|].
  destruct (lookup_lt_is_Some_2 (reg s) kb) as [vb Hvb];
    [rewrite Hr; by apply (Hlt b)|].
  set (sp1 := Z.land (sp - 1) 0xff).
  assert (B1 : 0 ≤ sp1 ≤ 255) by apply land_255_range.
  set (sp2 := Z.land (sp1 - 1) 0xff).
  assert (B2 : 0 ≤ sp2 ≤ 255) by apply land_255_range.
  (* push a *)
  pose proof (push_Ok s a sp ka va Hm Hr Hsp Hka) as P1.
  rewrite list_lookup_insert_ne in P1 by done. specialize (P1 Hva).
  fold sp1 in P1. set (s1 := with_ram _ _) in P1.
  rewrite (bind_Ok _ _ s tt s1 P1).
  (* push b *)
  assert (Hm1 : length (ram s1) = 256%nat) by (simpl; by rewrite length_insert).
  assert (Hr1 : length (reg s1) = 8%nat) by (simpl; by rewrite length_insert).
  pose proof (push_Ok s1 b sp1 kb vb Hm1 Hr1) as P2.
  specialize (P2 ltac:(simpl; apply list_lookup_insert_eq; lia) Hkb).
  fold sp2 in P2. simpl in P2.
  rewrite list_insert_insert_eq in P2.
  rewrite list_lookup_insert_ne in P2 by done. specialize (P2 Hvb).
  set (s2 := with_ram _ _) in P2.
  rewrite (bind_Ok _ _ s1 tt s2 P2).
  (* pop c *)
  assert (Hm2 : length (ram s2) = 256%nat) by (simpl; by rewrite !length_insert).
  assert (Hr2 : length (reg s2) = 8%nat) by (simpl; by rewrite length_insert).
  destruct (pop_Ok s2 c sp2 kc vb Hm2 Hr2) as (x3 & Hx3 & P3);
    [simpl; apply list_lookup_insert_eq; lia | done
    | simpl; apply list_lookup_insert_eq; rewrite length_insert; lia
    | done |].
  simpl in Hx3, P3.
  rewrite list_lookup_insert_ne in Hx3 by done.
  rewrite list_lookup_insert_eq in Hx3 by lia. injection Hx3 as <-.
  unfold sp2 in P3 at 1. rewrite sp_down_up in P3 by done.
  set (s3 := with_reg _ s2) in P3.
  rewrite (bind_Ok _ _ s2 tt s3 P3).
  (* pop d *)
  assert (Hm3 : length (ram s3) = 256%nat) by done.
  assert (Hr3 : length (reg s3) = 8%nat) by (simpl; by rewrite !length_insert).
  destruct (pop_Ok s3 d sp1 kd va Hm3 Hr3) as (x4 & Hx4 & P4);
    [simpl; apply list_lookup_insert_eq; rewrite !length_insert; lia | done
    | | done |].
  { simpl. rewrite list_lookup_insert_ne by (apply sp_down_differs; done).
    apply list_lookup_insert_eq. lia. }
  simpl in Hx4, P4.
  rewrite list_lookup_insert_ne in Hx4 by done.
  rewrite list_lookup_insert_eq in Hx4 by (rewrite !length_insert; lia).
  injection Hx4 as <-.
  unfold sp1 in P4 at 1. rewrite sp_down_up_mod in P4.
  eexists. split; [exact P4|]. simpl.
  assert (Hkd8 := Hlt d kd Hkd). assert (Hkc8 := Hlt c kc Hkc).
  split; [|split; [|split]].
  - rewrite list_lookup_insert_ne by done.
    rewrite list_lookup_insert_eq by (rewrite !length_insert; lia). done.
  - intros Hcd. rewrite !list_lookup_insert_ne by done.
    rewrite list_lookup_insert_eq by (rewrite !length_insert; lia). done.
  - apply list_lookup_insert_eq. rewrite !length_insert. lia.
  - rewrite list_lookup_insert_eq by (rewrite !length_insert; lia).
    pose proof (Z.mod_pos_bound sp 256). split.
    + intros [= Heq]. lia.
    + intros H'. by rewrite Z.mod_small by lia.
Qed.

(** ** Instructions the loop does not execute *)

Lemma run_iteration_bad_instruction s op :
  py_getitem (ram s) (pc s) = Some op →
  truthy (sets_pc op) = true →
  num_operands op = 3
  ∨ num_operands op = 0 ∧ truthy (is_alu_operation op) = true →
  run_iteration op s
  = Ok op (with_stdout (stdout s ++ [PStr "Bad instruction"]) s).
Proof.
  intros Hf Hpc Hn. unfold run_iteration. cbv zeta. rewrite Hpc.
  assert (Hprint :
    (if truthy (is_alu_operation op)
     then if num_operands op =? 1
          then p ← get_pc; a ← CPU.ram_read (p + 1);
               CPU.alu op a None;; pc_add 2
          else if num_operands op =? 2
               then p ← get_pc; a ← CPU.ram_read (p + 1);
                    p ← get_pc; b ← CPU.ram_read (p + 2);
                    CPU.alu op a (Some b);; pc_add 3
               else print (PStr "Bad instruction")
     else if num_operands op =? 0
          then h ← lookup_handler op; invoke h [];; pc_add 1
          else if num_operands op =? 1
               then h ← lookup_handler op;
                    p ← get_pc; a ← CPU.ram_read (p + 1);
                    invoke h [a];; pc_add 2
               else if num_operands op =? 2
                    then h ← lookup_handler op;
                         p ← get_pc; a ← CPU.ram_read (p + 1);
                         p ← get_pc; b ← CPU.ram_read (p + 2);
                         invoke h [a; b];; pc_add 3
                    else print (PStr "Bad instruction"))
    = print (PStr "Bad instruction")).
  { destruct Hn as [-> | [-> ->]]; [|reflexivity].
    destruct (truthy (is_alu_operation op)); reflexivity. }
  rewrite Hprint.
  rewrite (bind_Ok (print _) _ s tt _ eq_refl). simpl negb. cbv iota.
  rewrite (bind_Ok (mret tt) _ _ tt _ eq_refl).
  set (s1 := with_stdout _ s).
  rewrite (bind_Ok get_pc _ s1 (pc s1) s1 eq_refl).
  by apply ram_read_Ok.
Qed.

(** X22. A byte with the sets-PC bit set that the loop does not execute
    (operand count 3, or the ALU flag with operand count 0) stops the
    machine from making progress: each pass prints ["Bad instruction"],
    leaves the program counter where it is and fetches the same byte
    again, so [run] never ends. *)
Theorem bad_instruction_loops_forever (s : cpu) (op : Z) (fuel : nat) :
  py_getitem (ram s) (pc s) = Some op →
  truthy (sets_pc op) = true →
  num_operands op = 3
  ∨ num_operands op = 0 ∧ truthy (is_alu_operation op) = true →
  passes fuel s
  = Ok op (with_stdout
             (stdout s ++ replicate fuel (PStr "Bad instruction")) s)
  ∧ run fuel s = None.
Proof.
  intros Hf Hpc Hn.
  assert (Hp : passes fuel s
               = Ok op (with_stdout
                          (stdout s ++ replicate fuel (PStr "Bad instruction"))
                          s)).
  { induction fuel as [|n IH].
    - unfold passes. rewrite (bind_Ok get_pc _ s (pc s) s eq_refl).
      rewrite (bind_Ok (CPU.ram_read (pc s)) _ s op s (ram_read_Ok _ _ _ Hf)).
      simpl. by rewrite app_nil_r, (ltac:(by destruct s) :
                                      with_stdout (stdout s) s = s).
    - rewrite passes_S, IH.
      rewrite run_iteration_bad_instruction by done.
      unfold with_stdout. simpl. rewrite <- app_assoc.
      replace (replicate n (PStr "Bad instruction") ++ [PStr "Bad instruction"])
        with (PStr "Bad instruction" :: replicate n (PStr "Bad instruction"));
        [done|].
      change (PStr "Bad instruction" :: replicate n (PStr "Bad instruction"))
        with (replicate (S n) (PStr "Bad instruction")).
      by rewrite replicate_S_end. }
  split; [done|]. by rewrite run_passes, Hp.
Qed.

(** ** The dispatch table *)

(** X23. The table built by the constructor has exactly seven entries, and
    each one sits under an opcode whose encoding agrees with its handler:
    the ALU flag is clear and the operand count in the top two bits is the
    number of operands the handler takes. *)
Theorem dispatch_table_matches_encoding (op : Z) (h : handler) :
  configure_dispatch_table !! op = Some h →
  op ∈ [CALL; HLT; LDI; PRN; POP; PUSH; RET]
  ∧ truthy (is_alu_operation op) = false
  ∧ num_operands op = Z.of_nat (arity h)
  ∧ dom configure_dispatch_table
    = list_to_set [CALL; HLT; LDI; PRN; POP; PUSH; RET].
Proof.
  intros H. split; [|split; [|split]].
  4:{ unfold configure_dispatch_table. rewrite !dom_insert_L, dom_empty_L.
      set_solver. }
  all: unfold configure_dispatch_table in H;
    repeat (apply lookup_insert_Some in H as [[<- <-] | [_ H]];
            [first [reflexivity | set_solver]|]);
    by rewrite lookup_empty in H.
Qed.

(** ** The trace printer *)

Lemma length_append (a b : string) :
  String.length (String.append a b) = (String.length a + String.length b)%nat.
Proof.
  induction a as [|c a IH]; [done|].
  change (S (String.length (String.append a b))
          = S (String.length a + String.length b)).
  by f_equal.
Qed.

Lemma append_assoc (a b c : string) :
  String.append (String.append a b) c = String.append a (String.append b c).
Proof.
  induction a as [|x a IH]; [done|].
  change (String x (String.append (String.append a b) c)
          = String x (String.append a (String.append b c))).
  by f_equal.
Qed.

(** An 8-bit value is printed as exactly two hexadecimal digits. *)
Lemma format_02X_byte (v : Z) :
  0 ≤ v ≤ 255 →
  format_02X v
  = String (hex_digit (v / 16)) (String (hex_digit (v mod 16)) EmptyString).
Proof.
  intros Hv.
  assert (Hall : forallb
            (λ n, String.eqb (format_02X (Z.of_nat n))
                    (String (hex_digit (Z.of_nat n / 16))
                       (String (hex_digit (Z.of_nat n mod 16)) EmptyString)))
            (seq 0 256) = true) by by vm_compute.
  rewrite forallb_forall in Hall.
  specialize (Hall (Z.to_nat v)). rewrite Z2Nat.id in Hall by lia.
  apply String.eqb_eq, Hall, in_seq. lia.
Qed.

Lemma append_empty_r (a : string) : String.append a EmptyString = a.
Proof.
  induction a as [|x a IH]; [done|].
  change (String x (String.append a EmptyString) = String x a). by f_equal.
Qed.

Lemma trace_registers_result r n i text :
  0 ≤ i → (Z.to_nat i + n ≤ length r)%nat →
  ∃ more, trace_registers r i n text = (String.append text more, None)
          ∧ (Forall byte r → String.length more = (3 * n)%nat).
Proof.
  revert i text. induction n as [|n IH]; intros i text Hi Hn.
  - exists EmptyString. split; [|done]. simpl. by rewrite append_empty_r.
  - cbn [trace_registers].
    destruct (lookup_lt_is_Some_2 r (Z.to_nat i)) as [v Hv]; [lia|].
    assert (Hg : py_getitem r i = Some v).
    { unfold py_getitem. by rewrite py_index_nonneg by lia. }
    rewrite Hg.
    destruct (IH (i + 1) (String.append text (String " " (format_02X v))))
      as (more & Hmore & Hlen); [lia | lia |].
    exists (String.append (String " " (format_02X v)) more).
    split; [by rewrite Hmore, append_assoc|].
    intros Hr.
    rewrite format_02X_byte by by apply (Forall_lookup_1 _ _ _ _ Hr Hv).
    change (S (S (S (String.length more))) = (3 * S n)%nat).
    rewrite (Hlen Hr). lia.
Qed.

Lemma sized_getitem_ram s i :
  sized s → -256 ≤ i ≤ 255 → ∃ v, py_getitem (ram s) i = Some v.
Proof.
  intros [Hm _] Hi.
  destruct (py_index (length (ram s)) i) as [k|] eqn:Hk.
  - rewrite (py_getitem_index _ _ _ Hk).
    apply py_index_Some in Hk as [Hk _]. by apply lookup_lt_is_Some_2.
  - apply py_index_None in Hk. rewrite Hm in Hk.
    change (Z.of_nat 256) with 256 in Hk. lia.
Qed.

(** X24. [trace] reads the three cells at PC, PC + 1 and PC + 2 before it
    prints anything: when one of these is not a valid address (with the
    program counter at 254 or 255, say) it raises [IndexError] and prints
    nothing; otherwise it prints its line and raises nothing. *)
Theorem trace_needs_three_cells (s : cpu) :
  sized s →
  (-256 ≤ pc s ∧ pc s + 2 ≤ 255 → ∃ line, trace s = (line, None))
  ∧ (¬ (-256 ≤ pc s ∧ pc s + 2 ≤ 255) →
     trace s = (EmptyString, Some IndexError)).
Proof.
  intros Hs. split.
  - intros Hpc. unfold trace.
    destruct (sized_getitem_ram s (pc s) Hs) as [m0 ->]; [lia|].
    destruct (sized_getitem_ram s (pc s + 1) Hs) as [m1 ->]; [lia|].
    destruct (sized_getitem_ram s (pc s + 2) Hs) as [m2 ->]; [lia|].
    cbv zeta.
    match goal with
    | |- context [trace_registers (reg s) 0 8 ?h] =>
        destruct (trace_registers_result (reg s) 8 0 h) as (more & -> & _);
        [lia | destruct Hs as [_ ->]; simpl; lia |]
    end.
    eauto.
  - intros Hpc. unfold trace.
    assert (Hnone : ∀ i, ¬ (-256 ≤ i ≤ 255) → py_getitem (ram s) i = None).
    { intros i Hi. unfold py_getitem.
      replace (py_index (length (ram s)) i) with (@None nat); [done|].
      symmetry. apply py_index_None. destruct Hs as [-> _].
      change (Z.of_nat 256) with 256. lia. }
    destruct (py_getitem (ram s) (pc s)) as [m0|] eqn:H0; [|done].
    destruct (py_getitem (ram s) (pc s + 1)) as [m1|] eqn:H1; [|done].
    destruct (py_getitem (ram s) (pc s + 2)) as [m2|] eqn:H2; [|done].
    exfalso.
    destruct (decide (-256 ≤ pc s ≤ 255)) as [Ha|Ha];
      [|by rewrite Hnone in H0].
    destruct (decide (-256 ≤ pc s + 2 ≤ 255)) as [Hb|Hb];
      [lia | by rewrite Hnone in H2].
Qed.

(** X25. On a state whose cells and registers are 8-bit and whose program
    counter is between 0 and 253, [trace] prints one line of 47
    characters: ["TRACE: "], the program counter as two hexadecimal
    digits, then the three cells and the eight registers, each as two
    hexadecimal digits, and a newline. *)
Theorem trace_line_format (s : cpu) :
  sized s → Forall byte (ram s) → Forall byte (reg s) → 0 ≤ pc s ≤ 253 →
  ∃ line,
    trace s = (line, None)
    ∧ String.length line = 47%nat
    ∧ substring 0 9 line
      = String.append "TRACE: "
          (String (hex_digit (pc s / 16))
             (String (hex_digit (pc s mod 16)) EmptyString))
    ∧ String.get 46 line = Some "010"%char.
Proof.
  intros Hs Hm Hr Hpc. unfold trace.
  destruct (sized_getitem_ram s (pc s) Hs) as [m0 H0]; [lia|].
  destruct (sized_getitem_ram s (pc s + 1) Hs) as [m1 H1]; [lia|].
  destruct (sized_getitem_ram s (pc s + 2) Hs) as [m2 H2]; [lia|].
  rewrite H0, H1, H2. cbv zeta.
  rewrite (format_02X_byte (pc s)) by lia.
  rewrite (format_02X_byte m0) by by apply (py_getitem_byte (ram s) (pc s)).
  rewrite (format_02X_byte m1) by by apply (py_getitem_byte (ram s) (pc s + 1)).
  rewrite (format_02X_byte m2) by by apply (py_getitem_byte (ram s) (pc s + 2)).
  match goal with
  | |- context [trace_registers (reg s) 0 8 ?h] =>
      destruct (trace_registers_result (reg s) 8 0 h) as (more & -> & Hlen);
      [lia | destruct Hs as [_ ->]; simpl; lia |]
  end.
  specialize (Hlen Hr). eexists. split; [reflexivity|].
  do 24 (destruct more as [|? more]; [discriminate Hlen|]).
  destruct more; [|discriminate Hlen].
  repeat split; reflexivity.
Qed.

(** ** Each stack operation on its own *)

(** X26. [push(a)] has no bounds check: it moves the stack pointer down by
    one modulo 256 (from 0 to 255), stores the value of register [a]
    (read after the move) in the cell the stack pointer now designates,
    whatever that cell held, and changes nothing else. *)
Theorem push_effect (s : cpu) (a sp x : Z) (ka : nat) :
  sized s →
  reg s !! 7%nat = Some sp →
  py_index 8 a = Some ka →
  <[7%nat := (sp - 1) mod 256]> (reg s) !! ka = Some x →
  CPU.push a s
  = Ok tt (with_ram (<[Z.to_nat ((sp - 1) mod 256) := x]> (ram s))
            (with_reg (<[7%nat := (sp - 1) mod 256]> (reg s)) s))
  ∧ 0 ≤ (sp - 1) mod 256 ≤ 255
  ∧ (sp = 0 → (sp - 1) mod 256 = 255).
Proof.
  intros [Hm Hr] Hsp Hka Hx. rewrite <- land_255_mod in *.
  split; [by apply (push_Ok s a sp ka x)|]. split; [apply land_255_range|].
  by intros ->.
Qed.

(** X27. [pop(b)], [b] not being register 7, has no bounds check either:
    it copies the cell the stack pointer [sp] designates into register
    [b], unmasked, and moves the stack pointer to [(sp + 1) mod 256] (from
    255 to 0); memory is not changed, so the popped value stays in its
    cell. The cell is [ram[sp]] by Python indexing: cell [sp] for an 8-bit
    [sp], a cell counted from the end for [sp] from -256 to -1; for any
    other [sp], [pop] raises [IndexError] and changes nothing. *)
Theorem pop_effect (s : cpu) (b sp : Z) (kb : nat) :
  sized s →
  reg s !! 7%nat = Some sp →
  py_index 8 b = Some kb → kb ≠ 7%nat →
  (∀ x, py_getitem (ram s) sp = Some x →
        CPU.pop b s
        = Ok tt (with_reg (<[7%nat := (sp + 1) mod 256]> (<[kb := x]> (reg s))) s))
  ∧ (py_getitem (ram s) sp = None → CPU.pop b s = Raise IndexError s)
  ∧ (py_getitem (ram s) sp = None ↔ ¬ (-256 ≤ sp ≤ 255))
  ∧ (0 ≤ sp ≤ 255 → py_getitem (ram s) sp = ram s !! Z.to_nat sp)
  ∧ (-256 ≤ sp < 0 → py_getitem (ram s) sp = ram s !! Z.to_nat (256 + sp))
  ∧ (sp = 255 → (sp + 1) mod 256 = 0).
Proof.
  intros [Hm Hr] Hsp Hkb Hne. split; [|split; [|split; [|split; [|split]]]].
  - intros x Hx.
    destruct (pop_any s b sp kb x Hr Hsp Hx Hkb) as (sp' & Hsp' & Hpop).
    rewrite list_lookup_insert_ne, Hsp in Hsp' by done. injection Hsp' as <-.
    by rewrite <- land_255_mod.
  - by apply pop_IndexError.
  - by apply py_getitem_ram_None.
  - intros B. by apply py_getitem_at_byte.
  - intros B. apply py_getitem_index. rewrite Hm. by apply py_index_neg.
  - by intros ->.
Qed.

(** X28. [call(r)] pushes [pc + 2] as it is, without masking it to 8 bits,
    and then sets the program counter to the value of register [r], read
    after the stack pointer has moved. *)
Theorem call_effect (s : cpu) (r sp x : Z) (kr : nat) :
  sized s →
  reg s !! 7%nat = Some sp →
  py_index 8 r = Some kr →
  <[7%nat := (sp - 1) mod 256]> (reg s) !! kr = Some x →
  CPU.call r s
  = Ok tt (with_pc x
            (with_ram (<[Z.to_nat ((sp - 1) mod 256) := pc s + 2]> (ram s))
               (with_reg (<[7%nat := (sp - 1) mod 256]> (reg s)) s))).
Proof.
  intros [Hm Hr] Hsp Hkr Hx. rewrite <- land_255_mod in *.
  by apply (call_Ok s r sp kr x).
Qed.

(** X29. [ret()] takes whatever the cell the stack pointer [sp] designates
    holds as the new program counter, whether or not a call put it there,
    and moves the stack pointer to [(sp + 1) mod 256]; memory and the other
    registers are unchanged. The cell is [ram[sp]] by Python indexing:
    cell [sp] for an 8-bit [sp], a cell counted from the end for [sp] from
    -256 to -1; for any other [sp], [ret] raises [IndexError] and changes
    nothing, the program counter included. *)
Theorem ret_effect (s : cpu) (sp : Z) :
  sized s →
  reg s !! 7%nat = Some sp →
  (∀ x, py_getitem (ram s) sp = Some x →
        CPU.ret s
        = Ok tt (with_reg (<[7%nat := (sp + 1) mod 256]> (reg s)) (with_pc x s)))
  ∧ (py_getitem (ram s) sp = None → CPU.ret s = Raise IndexError s)
  ∧ (py_getitem (ram s) sp = None ↔ ¬ (-256 ≤ sp ≤ 255))
  ∧ (0 ≤ sp ≤ 255 → py_getitem (ram s) sp = ram s !! Z.to_nat sp)
  ∧ (-256 ≤ sp < 0 → py_getitem (ram s) sp = ram s !! Z.to_nat (256 + sp)).
Proof.
  intros [Hm Hr] Hsp. split; [|split; [|split; [|split]]].
  - intros x Hx. rewrite <- land_255_mod. by apply ret_any.
  - by apply ret_IndexError.
  - by apply py_getitem_ram_None.
  - intros B. by apply py_getitem_at_byte.
  - intros B. apply py_getitem_index. rewrite Hm. by apply py_index_neg.
Qed.

(** ** The program counter at the edge of memory *)

(** X30. The program counter is never wrapped or checked: when it is not a
    valid address at a fetch, [run] raises [IndexError] at once, with the
    state as it is. *)
Theorem run_pc_outside_memory (s : cpu) (fuel : nat) :
  ¬ (- Z.of_nat (length (ram s)) ≤ pc s < Z.of_nat (length (ram s))) →
  run fuel s = Some (IndexError, s).
Proof.
  intros Hpc. unfold run.
  rewrite (bind_Ok get_pc _ s (pc s) s eq_refl).
  unfold CPU.ram_read, py_getitem.
  by replace (py_index (length (ram s)) (pc s)) with (@None nat)
    by (symmetry; by apply py_index_None).
Qed.

(** ** The key of the dispatch table and of the ALU *)

Lemma alu_cmp_branch s a (r : option Z) k x :
  py_index (length (reg s)) a = Some k → reg s !! k = Some x →
  CPU.alu CMP a r s = Ok tt (with_reg (<[k := x mod 256]> (reg s)) s).
Proof.
  intros Hk Hx. alu_select.
  rewrite (bind_Ok (mret tt) _ s tt s) by reflexivity.
  rewrite (bind_Ok (reg_get a) _ s x s)
    by (apply reg_get_Ok; by rewrite (py_getitem_index _ _ _ Hk)).
  by rewrite (reg_set_Ok s a _ k Hk), land_255_mod.
Qed.

Lemma alu_div_branch s a b k x y :
  py_index (length (reg s)) a = Some k → reg s !! k = Some x →
  py_getitem (reg s) b = Some y → y ≠ 0 →
  CPU.alu DIV a (Some b) s
  = Ok tt (with_reg (<[k := (x / y) mod 256]> (reg s)) s).
Proof.
  intros Hk Hx Hy Hne.
  assert (Ha : reg_get a s = Ok x s)
    by (apply reg_get_Ok; by rewrite (py_getitem_index _ _ _ Hk)).
  assert (Hb : reg_get_opt (Some b) s = Ok y s) by by apply reg_get_Ok.
  assert (Hy0 : (y =? 0) = false) by by apply Z.eqb_neq.
  alu_select. rewrite <- (alu_write_then_mask s a k (x / y) Hk).
  unfold mbind, M_bind. rewrite Hb. cbv beta iota. rewrite Hy0.
  unfold mret, M_ret. cbv beta iota. rewrite Ha. cbv beta iota.
  by rewrite Hb.
Qed.

Lemma alu_mod_branch s a b k x y :
  py_index (length (reg s)) a = Some k → reg s !! k = Some x →
  py_getitem (reg s) b = Some y → y ≠ 0 →
  CPU.alu MOD a (Some b) s
  = Ok tt (with_reg (<[k := (x mod y) mod 256]> (reg s)) s).
Proof.
  intros Hk Hx Hy Hne.
  assert (Ha : reg_get a s = Ok x s)
    by (apply reg_get_Ok; by rewrite (py_getitem_index _ _ _ Hk)).
  assert (Hb : reg_get_opt (Some b) s = Ok y s) by by apply reg_get_Ok.
  assert (Hy0 : (y =? 0) = false) by by apply Z.eqb_neq.
  alu_select. rewrite <- (alu_write_then_mask s a k (x mod y) Hk).
  unfold mbind, M_bind. rewrite Ha. cbv beta iota. rewrite Hb.
  cbv beta iota. by rewrite Hy0.
Qed.

Lemma alu_not_listed s op a (r : option Z) :
  op ∉ [ADD; AND; CMP; DEC; DIV; INC; MOD; MUL; NOT; OR; SHL; SHR; SUB; XOR] →
  CPU.alu op a r s = Raise (Exception "Unsupported ALU Operation") s.
Proof.
  intros Hop. unfold CPU.alu.
  repeat match goal with
         | |- context [op =? ?c] =>
             destruct (Z.eqb_spec op c) as [->|_];
             [exfalso; apply Hop; set_solver|]
         end.
  by apply bind_Raise.
Qed.

(** C6. Decoding an instruction byte [b]: the operand count is its top two
    bits, the ALU flag is bit 5, the sets-PC flag is bit 4; these are total
    functions of the byte.  The key of the dispatch lookup and of the ALU
    is the whole byte.  With the ALU flag clear, the loop raises
    [KeyError(b)] when the table has no entry under [b] itself, and
    otherwise calls the handler stored under [b] with the operands the
    count announces.  With the ALU flag set, the loop passes [b] itself to
    [alu], and [alu] tells the fourteen operations apart by the whole
    byte: each opcode stores its own result, masked to 8 bits, and every
    other byte is rejected.  [HLT] and [RET], which agree on their low four
    bits, have different handlers. *)
Theorem decode_fields (b : Z) :
  0 ≤ b ≤ 255 →
  let rest : M Z :=
    (if negb (truthy (sets_pc b)) then pc_add (num_operands b + 1)
     else mret tt);;
    p ← get_pc; CPU.ram_read p in
  num_operands b = 2 * Z.b2z (Z.testbit b 7) + Z.b2z (Z.testbit b 6)
  ∧ 0 ≤ num_operands b ≤ 3
  ∧ is_alu_operation b = Z.b2z (Z.testbit b 5)
  ∧ sets_pc b = Z.b2z (Z.testbit b 4)
  ∧ (∀ s, truthy (is_alu_operation b) = false → num_operands b ≤ 2 →
          dispatch_table s !! b = None →
          run_iteration b s = Raise (KeyError b) s)
  ∧ (Z.land HLT ID_MASK = Z.land RET ID_MASK
     ∧ configure_dispatch_table !! HLT = Some h_hlt
     ∧ configure_dispatch_table !! RET = Some h_ret)
  ∧ (∀ s a x, CPU.alu (Z.land ADD ID_MASK) a x s
              = Raise (Exception "Unsupported ALU Operation") s)
  ∧ (∀ s h, truthy (is_alu_operation b) = false →
            dispatch_table s !! b = Some h →
            (num_operands b = 0 →
             run_iteration b s
             = ((invoke h [];; pc_add 1) ≫= λ _, rest) s)
            ∧ (num_operands b = 1 →
               run_iteration b s
               = ((p ← get_pc; a ← CPU.ram_read (p + 1);
                   invoke h [a];; pc_add 2) ≫= λ _, rest) s)
            ∧ (num_operands b = 2 →
               run_iteration b s
               = ((p ← get_pc; a ← CPU.ram_read (p + 1);
                   p ← get_pc; c ← CPU.ram_read (p + 2);
                   invoke h [a; c];; pc_add 3) ≫= λ _, rest) s))
  ∧ (∀ s, truthy (is_alu_operation b) = true →
          (num_operands b = 1 →
           run_iteration b s
           = ((p ← get_pc; a ← CPU.ram_read (p + 1);
               CPU.alu b a None;; pc_add 2) ≫= λ _, rest) s)
          ∧ (num_operands b = 2 →
             run_iteration b s
             = ((p ← get_pc; a ← CPU.ram_read (p + 1);
                 p ← get_pc; c ← CPU.ram_read (p + 2);
                 CPU.alu b a (Some c);; pc_add 3) ≫= λ _, rest) s))
  ∧ (b ∉ [ADD; AND; CMP; DEC; DIV; INC; MOD; MUL; NOT; OR; SHL; SHR; SUB; XOR]
     → ∀ s a x, CPU.alu b a x s
                = Raise (Exception "Unsupported ALU Operation") s)
  ∧ (∀ s a r k x y,
       py_index (length (reg s)) a = Some k → reg s !! k = Some x →
       py_getitem (reg s) r = Some y →
       let stored (v : Z) : result unit :=
         Ok tt (with_reg (<[k := v mod 256]> (reg s)) s) in
       CPU.alu ADD a (Some r) s = stored (x + y)
       ∧ CPU.alu AND a (Some r) s = stored (Z.land x y)
       ∧ CPU.alu CMP a (Some r) s = stored x
       ∧ CPU.alu DEC a None s = stored (x - 1)
       ∧ (y ≠ 0 → CPU.alu DIV a (Some r) s = stored (x / y))
       ∧ CPU.alu INC a None s = stored (x + 1)
       ∧ (y ≠ 0 → CPU.alu MOD a (Some r) s = stored (x mod y))
       ∧ CPU.alu MUL a (Some r) s = stored (x * y)
       ∧ CPU.alu NOT a None s = stored (Z.lnot x)
       ∧ CPU.alu OR a (Some r) s = stored (Z.lor x y)
       ∧ (0 ≤ y → shift_refused x y = None →
          CPU.alu SHL a (Some r) s = stored (Z.shiftl x y))
       ∧ (0 ≤ y → CPU.alu SHR a (Some r) s = stored (Z.shiftr x y))
       ∧ CPU.alu SUB a (Some r) s = stored (x - y)
       ∧ CPU.alu XOR a (Some r) s = stored (Z.lxor x y)).
Proof.
  intros Hb rest.
  assert (Hn := num_operands_top_bits b Hb).
  assert (Hr : 0 ≤ num_operands b ≤ 3).
  { rewrite Hn. destruct (Z.testbit b 7), (Z.testbit b 6); simpl; lia. }
  split; [done|]. split; [done|].
  split; [apply (shiftr_land_bit b 5); lia|].
  split; [apply (shiftr_land_bit b 4); lia|].
  split.
  { intros s Halu Hle Hnone.
    apply run_iteration_unregistered; [done | lia | done]. }
  split; [split; [by vm_compute | split; reflexivity]|].
  split; [reflexivity|].
  split.
  { intros s h Halu Hh.
    assert (Hl : lookup_handler b s = Ok h s)
      by (unfold lookup_handler; by rewrite Hh).
    repeat split; intros Hc; unfold run_iteration, rest; cbv zeta;
      rewrite Halu, Hc; cbn [Z.eqb Pos.eqb]; cbv iota;
      unfold mbind, M_bind; by rewrite Hl. }
  split.
  { intros s Halu.
    split; intros Hc; unfold run_iteration, rest; cbv zeta;
      rewrite Halu, Hc; reflexivity. }
  split; [intros Hop s a x; by apply alu_not_listed|].
  intros s a r k x y Hk Hx Hy stored. unfold stored.
  split; [alu_select; by apply (alu_binary_branch s a r k x y Z.add)|].
  split; [alu_select; by apply (alu_binary_branch s a r k x y Z.land)|].
  split; [by apply alu_cmp_branch|].
  split; [alu_select; by apply (alu_unary_branch s a k x (λ x, x - 1))|].
  split; [intros Hy0; by apply alu_div_branch|].
  split; [alu_select; by apply (alu_unary_branch s a k x (λ x, x + 1))|].
  split; [intros Hy0; by apply alu_mod_branch|].
  split; [alu_select; by apply (alu_binary_branch s a r k x y Z.mul)|].
  split; [alu_select; by apply (alu_unary_branch s a k x Z.lnot)|].
  split; [alu_select; by apply (alu_binary_branch s a r k x y Z.lor)|].
  split.
  { intros Hy0 Hh. alu_select.
    by rewrite (alu_shl_branch s a r k x y Hk Hx Hy Hy0), Hh. }
  split.
  { intros Hy0. alu_select.
    by apply (alu_shift_branch s a r k x y Z.shiftr). }
  split; [alu_select; by apply (alu_binary_branch s a r k x y Z.sub)|].
  alu_select. by apply (alu_binary_branch s a r k x y Z.lxor).
Qed.

End OnAnyHost.

(** ** Concrete runs

    The counterexamples and the instances of the theorems are runs on
    [example_host]. *)

#[global] Existing Instance example_host.

(** C1, as stated, fails: on the program made of the halt opcode alone,
    whatever ends [run] leaves the program counter at 0, not at 1. *)
Lemma hlt_only_pc_not_advanced :
  ¬ (∃ fuel e s', run fuel hlt_only = Some (e, s')
                  ∧ pc s' = pc hlt_only + 1).
Proof.
  intros (fuel & e & s' & Hrun & Hpc).
  destruct fuel as [|fuel]; [discriminate|].
  rewrite (run_first_raise hlt_only HLT SystemExit hlt_only) in Hrun;
    [| reflexivity | by apply run_iteration_hlt].
  injection Hrun as _ <-. discriminate.
Qed.

Lemma hlt_raises_SystemExit_witness :
  run 1 hlt_only = Some (SystemExit, hlt_only) ∧ pc hlt_only = 0.
Proof.
  split; [|reflexivity].
  apply (hlt_raises_SystemExit hlt_only 0); reflexivity.
Defined.

(** C3, as stated, fails: the byte [0b11000000] has the ALU flag clear and
    no handler, yet the loop does not fault on it: it prints
    ["Bad instruction"], advances the program counter by 4 and fetches the
    next instruction. *)
Lemma bad_instruction_continues :
  py_getitem (ram bad_only) (pc bad_only) = Some (bin "11000000")
  ∧ truthy (is_alu_operation (bin "11000000")) = false
  ∧ dispatch_table bad_only !! bin "11000000" = None
  ∧ run_iteration (bin "11000000") bad_only
    = Ok NOP (with_pc 4 (with_stdout [PStr "Bad instruction"] bad_only)).
Proof. repeat split; vm_compute; reflexivity. Qed.

Lemma unregistered_opcode_KeyError_witness :
  run_iteration NOP init = Raise (KeyError NOP) init
  ∧ run 1 init = Some (KeyError NOP, init).
Proof.
  destruct (unregistered_opcode_KeyError NOP init 0) as [H1 H2];
    [reflexivity | by vm_compute | reflexivity |].
  split; [exact H1 | apply H2; reflexivity].
Defined.

Lemma div_mod_by_zero_witness :
  CPU.alu DIV 0 (Some 1) div_by_zero
    = Raise (ValueError "Cannot divide by 0") div_by_zero
  ∧ CPU.alu MOD 0 (Some 1) div_by_zero = Raise ZeroDivisionError div_by_zero
  ∧ run 1 div_by_zero = Some (ValueError "Cannot divide by 0", div_by_zero).
Proof.
  destruct (div_mod_by_zero div_by_zero 0 1 0 0) as (H1 & H2 & H3);
    [reflexivity | reflexivity |].
  split; [exact H1|]. split; [exact H2|].
  apply H3; reflexivity.
Defined.

(** C5, as stated, fails: on the image [overflow_bytes], all of whose
    bytes are 8-bit values, the sixth pass of the loop executes [LDI]
    with the operand cell holding 256, and register 2 then holds 256. *)
Lemma ldi_loads_256 :
  ∃ s0 s5 ir s6,
    Loader.load (image overflow_bytes) init = Ok tt s0
    ∧ passes 5 s0 = Ok LDI s5
    ∧ run_iteration LDI s5 = Ok ir s6
    ∧ py_getitem (reg s6) 2 = Some 256
    ∧ ¬ byte 256.
Proof.
  eexists _, _, _, _. split; [vm_compute; reflexivity|].
  split; [vm_compute; reflexivity|]. split; [vm_compute; reflexivity|].
  split; [reflexivity|]. unfold byte. lia.
Qed.

Lemma alu_masks_ldi_stores_witness :
  ∃ k, py_index (length (reg init)) 0 = Some k
       ∧ py_getitem (reg (with_reg (<[0%nat := 8]> (reg init)) init)) 0 = Some 8
       ∧ (∀ j, j ≠ k →
               reg (with_reg (<[0%nat := 8]> (reg init)) init) !! j
               = reg init !! j)
       ∧ (Forall byte (reg init) → byte 8 →
          Forall byte (reg (with_reg (<[0%nat := 8]> (reg init)) init))).
Proof.
  destruct (alu_masks_ldi_stores init ADD 0 None 8) as (_ & H & _).
  apply (H (with_reg (<[0%nat := 8]> (reg init)) init)). reflexivity.
Defined.

Lemma decode_fields_witness :
  0 ≤ LDI ≤ 255 ∧ num_operands LDI = 2 ∧ is_alu_operation LDI = 0
  ∧ sets_pc LDI = 0.
Proof.
  split; [unfold LDI; lia|].
  destruct (decode_fields LDI) as (H1 & _ & H2 & H3 & _);
    [unfold LDI; lia|].
  rewrite H1, H2, H3. repeat split; reflexivity.
Defined.

(** C7, as stated, fails when the destination of [pop] is register 7, the
    stack pointer itself: on a fresh CPU, [push(0)] then [pop(7)] leaves 1
    in register 7, which is neither the value pushed (0) nor the stack
    pointer before the push (247). *)
Lemma pop_into_stack_pointer :
  ∃ s1 s2, CPU.push 0 init = Ok tt s1 ∧ CPU.pop 7 s1 = Ok tt s2
           ∧ py_getitem (reg init) 0 = Some 0
           ∧ py_getitem (reg init) 7 = Some 247
           ∧ py_getitem (reg s2) 7 = Some 1.
Proof.
  eexists _, _. split; [vm_compute; reflexivity|].
  split; [vm_compute; reflexivity|]. repeat split; reflexivity.
Qed.

Lemma push_then_pop_witness :
  ∃ s1 s2 v,
    CPU.push 0 init = Ok tt s1 ∧ CPU.pop 1 s1 = Ok tt s2
    ∧ py_getitem (reg s1) 0 = Some v
    ∧ py_getitem (ram s1) (Z.land (247 - 1) 0xff) = Some v
    ∧ (0 ≠ 7 → 0 ≠ -1 → py_getitem (reg init) 0 = Some v)
    ∧ py_getitem (reg s2) 1 = Some v
    ∧ py_getitem (reg s2) 7 = Some 247.
Proof.
  apply (push_then_pop init 0 1 247); try reflexivity; lia.
Defined.

Lemma call_then_ret_witness :
  ∃ s1 s2,
    CPU.call 0 init = Ok tt s1 ∧ CPU.ret s1 = Ok tt s2
    ∧ py_getitem (ram s1) (Z.land (247 - 1) 0xff) = Some (pc init + 2)
    ∧ py_getitem (reg s1) 0 = Some (pc s1)
    ∧ pc s2 = pc init + 2
    ∧ py_getitem (reg s2) 7 = Some (247 mod 256)
    ∧ (py_getitem (reg s2) 7 = Some 247 ↔ 0 ≤ 247 ≤ 255).
Proof.
  apply (call_then_ret init 0 247); try reflexivity; lia.
Defined.

(** C8, as stated, fails: the image [sp_overflow_bytes], all of whose bytes
    are 8-bit values, brings the stack pointer to 256 in six passes of the
    loop; from that state [call(3)] followed by [ret()] leaves the program
    counter two further, and the stack pointer at 0. *)
Lemma call_ret_loses_stack_pointer :
  Forall byte sp_overflow_bytes
  ∧ ∃ s0 ir s6 s7 s8,
      Loader.load (image sp_overflow_bytes) init = Ok tt s0
      ∧ passes 6 s0 = Ok ir s6
      ∧ py_getitem (reg s6) 7 = Some 256
      ∧ CPU.call 3 s6 = Ok tt s7 ∧ CPU.ret s7 = Ok tt s8
      ∧ pc s8 = pc s6 + 2
      ∧ py_getitem (reg s8) 7 = Some 0.
Proof.
  split; [apply (bool_decide_unpack _); by vm_compute|].
  eexists _, _, _, _, _. split; [vm_compute; reflexivity|].
  split; [vm_compute; reflexivity|]. split; [reflexivity|].
  split; [vm_compute; reflexivity|]. split; [vm_compute; reflexivity|].
  split; reflexivity.
Qed.

(** C9, as stated, fails: every byte of the image is an 8-bit value, and
    after five passes of the loop the memory cell at address 26 holds 256,
    written by [CALL] as [pc + 2] with the program counter at 254. *)
Lemma call_stores_256 :
  Forall byte overflow_bytes
  ∧ ∃ s0 s4 s5,
      Loader.load (image overflow_bytes) init = Ok tt s0
      ∧ passes 4 s0 = Ok CALL s4 ∧ pc s4 = 254
      ∧ passes 5 s0 = Ok LDI s5
      ∧ py_getitem (ram s5) 26 = Some 256
      ∧ ¬ byte 256.
Proof.
  split; [apply (bool_decide_unpack _); by vm_compute|].
  eexists _, _, _. split; [vm_compute; reflexivity|].
  split; [vm_compute; reflexivity|]. split; [reflexivity|].
  split; [vm_compute; reflexivity|]. split; [reflexivity|].
  unfold byte. lia.
Qed.

Lemma memory_cells_are_bytes_witness :
  Forall byte (ram (loaded [CALL; 0]))
  ∧ Forall byte (ram (final_state (passes 1 (loaded [CALL; 0])))).
Proof.
  apply (memory_cells_are_bytes (image [CALL; 0]) 1).
  - intros line v Hin Hv.
    repeat (apply elem_of_cons in Hin as [-> | Hin];
            [vm_compute in Hv; injection Hv as <-; unfold byte; lia|]).
    by apply elem_of_nil in Hin.
  - intros k ir s a Hk Hp _ _ _ _.
    assert (k = 0%nat) as -> by lia.
    vm_compute in Hp. injection Hp as _ <-. unfold byte. simpl. lia.
Defined.

Lemma ram_negative_addresses_witness :
  length (ram init) = 256%nat
  ∧ CPU.ram_write (-1) 5 init
    = Ok tt (with_ram (<[255%nat := 5]> (ram init)) init).
Proof.
  split; [reflexivity|].
  apply (ram_negative_addresses init (-1) 5); [reflexivity | lia].
Defined.

Lemma load_stores_sequentially_witness :
  Loader.load (image [LDI; 0; 8]) init
  = Ok tt (with_ram (parsed (image [LDI; 0; 8])
                     ++ drop (length (parsed (image [LDI; 0; 8]))) (ram init))
             init).
Proof. apply load_stores_sequentially. vm_compute. lia. Defined.

Lemma load_program_too_large_witness :
  Loader.load (image (replicate 257 1)) init
  = Raise IndexError
      (with_ram (take (length (ram init)) (parsed (image (replicate 257 1))))
         init).
Proof. apply load_program_too_large. vm_compute. lia. Defined.

(** The separators 28 to 31 are not white space for [int]: next to a
    digit, before or after it, they make the line malformed. *)
Example int2_separator_is_not_space :
  int2 (String (ascii_of_nat 28) "1") = None
  ∧ int2 (String "1" (String (ascii_of_nat 31) EmptyString)) = None
  ∧ int2 (String (ascii_of_nat 9) (String "1" (String " " EmptyString)))
    = Some 1.
Proof. repeat split; reflexivity. Qed.

Lemma load_skips_malformed_line_witness :
  Loader.load ([] ++ "10000002"%string :: image [HLT]) init
  = Loader.load ([] ++ image [HLT]) init.
Proof. apply load_skips_malformed_line. reflexivity. Defined.

Lemma load_skips_blank_and_comment_lines_witness :
  Loader.load (image [LDI] ++ "  # the register"%string :: image [HLT]) init
  = Loader.load (image [LDI] ++ image [HLT]) init.
Proof. apply load_skips_blank_and_comment_lines. reflexivity. Defined.

Lemma memory_and_registers_keep_size_witness :
  sized (final_state (Loader.load (image [CALL; 0]) init))
  ∧ sized (final_state (passes 3 init))
  ∧ sized (final_state (invoke h_push [0] init))
  ∧ sized (final_state (CPU.alu INC 0 None init)).
Proof. apply memory_and_registers_keep_size. by split. Defined.

Lemma ram_write_then_read_witness :
  ∃ k s',
    py_index (length (ram init)) (-1) = Some k
    ∧ CPU.ram_write (-1) 42 init = Ok tt s'
    ∧ CPU.ram_read (-1) s' = Ok 42 s'
    ∧ (∀ b j, py_index (length (ram init)) b = Some j → j ≠ k →
              CPU.ram_read b s' = match CPU.ram_read b init with
                                  | Ok x _ => Ok x s'
                                  | Raise e _ => Raise e s'
                                  end)
    ∧ reg s' = reg init ∧ pc s' = pc init ∧ stdout s' = stdout init.
Proof. apply ram_write_then_read. by vm_compute. Defined.

Lemma stack_pointer_set_then_get_witness :
  (CPU.set_stack_pointer (-1) ≫= λ _, CPU.stack_pointer) init
  = Ok (-1 mod 256) (with_reg (<[7%nat := -1 mod 256]> (reg init)) init)
  ∧ 0 ≤ -1 mod 256 ≤ 255.
Proof. apply stack_pointer_set_then_get. reflexivity. Defined.

Lemma alu_add_sub_mul_wrap_witness :
  CPU.alu ADD 0 (Some 1) two_registers
    = Ok tt (with_reg (<[0%nat := (200 + 100) mod 256]> (reg two_registers))
               two_registers)
  ∧ CPU.alu SUB 0 (Some 1) two_registers
    = Ok tt (with_reg (<[0%nat := (200 - 100) mod 256]> (reg two_registers))
               two_registers)
  ∧ CPU.alu MUL 0 (Some 1) two_registers
    = Ok tt (with_reg (<[0%nat := (200 * 100) mod 256]> (reg two_registers))
               two_registers).
Proof. apply alu_add_sub_mul_wrap; reflexivity. Defined.

Lemma alu_inc_dec_wrap_witness :
  CPU.alu INC 7 None init
    = Ok tt (with_reg (<[7%nat := if 247 =? 255 then 0 else 247 + 1]> (reg init))
               init)
  ∧ CPU.alu DEC 7 None init
    = Ok tt (with_reg (<[7%nat := if 247 =? 0 then 255 else 247 - 1]> (reg init))
               init).
Proof. apply alu_inc_dec_wrap; [reflexivity | reflexivity | lia]. Defined.

Lemma alu_bitwise_witness :
  CPU.alu AND 0 (Some 1) two_registers
    = Ok tt (with_reg (<[0%nat := Z.land 200 100]> (reg two_registers))
               two_registers)
  ∧ CPU.alu OR 0 (Some 1) two_registers
    = Ok tt (with_reg (<[0%nat := Z.lor 200 100]> (reg two_registers))
               two_registers)
  ∧ CPU.alu XOR 0 (Some 1) two_registers
    = Ok tt (with_reg (<[0%nat := Z.lxor 200 100]> (reg two_registers))
               two_registers)
  ∧ CPU.alu NOT 0 None two_registers
    = Ok tt (with_reg (<[0%nat := 255 - 200]> (reg two_registers))
               two_registers).
Proof. apply (alu_bitwise two_registers 0 1 200 100); (reflexivity || lia). Defined.

Lemma alu_shifts_witness :
  (shift_refused 200 100 = None →
   CPU.alu SHL 0 (Some 1) two_registers
   = Ok tt (with_reg (<[0%nat := (200 * 2 ^ 100) mod 256]> (reg two_registers))
              two_registers))
  ∧ (∀ e, shift_refused 200 100 = Some e →
          CPU.alu SHL 0 (Some 1) two_registers
          = Raise (shift_exn e) two_registers)
  ∧ CPU.alu SHR 0 (Some 1) two_registers
    = Ok tt (with_reg (<[0%nat := 200 / 2 ^ 100]> (reg two_registers))
               two_registers)
  ∧ (8 ≤ 100 → (200 * 2 ^ 100) mod 256 = 0 ∧ 200 / 2 ^ 100 = 0).
Proof. apply (alu_shifts two_registers 0 1 200 100); (reflexivity || lia). Defined.

Lemma alu_div_mod_witness :
  CPU.alu DIV 0 (Some 1) two_registers
    = Ok tt (with_reg (<[0%nat := 200 / 100]> (reg two_registers)) two_registers)
  ∧ CPU.alu MOD 0 (Some 1) two_registers
    = Ok tt (with_reg (<[0%nat := 200 mod 100]> (reg two_registers))
               two_registers)
  ∧ 200 = 100 * (200 / 100) + 200 mod 100 ∧ 0 ≤ 200 mod 100 < 100
  ∧ 0 ≤ 200 / 100 ≤ 200.
Proof. apply (alu_div_mod two_registers 0 1 200 100); (reflexivity || lia). Defined.

Lemma alu_cmp_does_nothing_witness :
  CPU.alu CMP 0 (Some 99) two_registers = Ok tt two_registers.
Proof. apply (alu_cmp_does_nothing two_registers 0 200); [reflexivity | lia]. Defined.

Lemma alu_unsupported_operation_witness :
  CPU.alu (bin "10101111") 0 (Some 1) init
  = Raise (Exception "Unsupported ALU Operation") init.
Proof.
  apply alu_unsupported_operation.
  intros H. repeat (apply elem_of_cons in H as [H|H]; [discriminate H|]).
  by apply elem_of_nil in H.
Defined.

Lemma alu_raise_leaves_state_witness :
  CPU.alu ADD 0 (Some 8) two_registers = Raise IndexError two_registers
  ∧ two_registers = two_registers.
Proof.
  split; [reflexivity|].
  apply (alu_raise_leaves_state two_registers two_registers ADD 0 (Some 8)
           IndexError).
  reflexivity.
Defined.

Lemma alu_missing_operand_witness :
  CPU.alu ADD 0 None two_registers = Raise TypeError two_registers.
Proof.
  apply (alu_missing_operand two_registers ADD 0 200); [|reflexivity].
  apply elem_of_cons. by left.
Defined.

Lemma pop_then_push_witness :
  (∀ x, py_getitem (ram two_registers) 247 = Some x →
        (CPU.pop 0 ≫= λ _, CPU.push 0) two_registers
        = Ok tt (with_reg (<[7%nat := 247 mod 256]>
                             (<[0%nat := x]> (reg two_registers)))
                   two_registers))
  ∧ (∀ x, 0 ≤ 247 ≤ 255 → ram two_registers !! Z.to_nat 247 = Some x →
          (CPU.pop 0 ≫= λ _, CPU.push 0) two_registers
          = Ok tt (with_reg (<[0%nat := x]> (reg two_registers)) two_registers))
  ∧ (py_getitem (ram two_registers) 247 = None →
     (CPU.pop 0 ≫= λ _, CPU.push 0) two_registers
     = Raise IndexError two_registers)
  ∧ (py_getitem (ram two_registers) 247 = None ↔ ¬ (-256 ≤ 247 ≤ 255)).
Proof.
  apply (pop_then_push two_registers 0 247 0%nat);
    try reflexivity; try lia; by split.
Defined.

Lemma stack_is_lifo_witness :
  ∃ s',
    (CPU.push 0 ≫= λ _, CPU.push 1 ≫= λ _, CPU.pop 2 ≫= λ _, CPU.pop 3)
      two_registers
    = Ok tt s'
    ∧ reg s' !! 3%nat = reg two_registers !! 0%nat
    ∧ (2%nat ≠ 3%nat → reg s' !! 2%nat = reg two_registers !! 1%nat)
    ∧ reg s' !! 7%nat = Some (247 mod 256)
    ∧ (reg s' !! 7%nat = Some 247 ↔ 0 ≤ 247 ≤ 255).
Proof.
  apply (stack_is_lifo two_registers 0 1 2 3 247);
    try reflexivity; try lia; by split.
Defined.

Lemma bad_instruction_loops_forever_witness :
  passes 5 stuck
  = Ok (bin "00110000")
      (with_stdout (stdout stuck ++ replicate 5 (PStr "Bad instruction")) stuck)
  ∧ run 5 stuck = None.
Proof.
  apply (bad_instruction_loops_forever stuck (bin "00110000") 5);
    [reflexivity | reflexivity | right; split; reflexivity].
Defined.

Lemma dispatch_table_matches_encoding_witness :
  LDI ∈ [CALL; HLT; LDI; PRN; POP; PUSH; RET]
  ∧ truthy (is_alu_operation LDI) = false
  ∧ num_operands LDI = Z.of_nat (arity h_ldi)
  ∧ dom configure_dispatch_table
    = list_to_set [CALL; HLT; LDI; PRN; POP; PUSH; RET].
Proof. apply dispatch_table_matches_encoding. reflexivity. Defined.

Lemma trace_needs_three_cells_witness :
  (-256 ≤ pc (with_pc 254 init) ∧ pc (with_pc 254 init) + 2 ≤ 255 →
   ∃ line, trace (with_pc 254 init) = (line, None))
  ∧ (¬ (-256 ≤ pc (with_pc 254 init) ∧ pc (with_pc 254 init) + 2 ≤ 255) →
     trace (with_pc 254 init) = (EmptyString, Some IndexError)).
Proof. apply trace_needs_three_cells. by split. Defined.

Lemma trace_line_format_witness :
  ∃ line,
    trace two_registers = (line, None)
    ∧ String.length line = 47%nat
    ∧ substring 0 9 line
      = String.append "TRACE: "
          (String (hex_digit (pc two_registers / 16))
             (String (hex_digit (pc two_registers mod 16)) EmptyString))
    ∧ String.get 46 line = Some "010"%char.
Proof.
  apply trace_line_format;
    [by split | apply (bool_decide_unpack _); by vm_compute
    | apply (bool_decide_unpack _); by vm_compute | by vm_compute].
Defined.

Lemma push_effect_witness :
  CPU.push 0 two_registers
  = Ok tt (with_ram (<[Z.to_nat ((247 - 1) mod 256) := 200]> (ram two_registers))
            (with_reg (<[7%nat := (247 - 1) mod 256]> (reg two_registers))
               two_registers))
  ∧ 0 ≤ (247 - 1) mod 256 ≤ 255
  ∧ (247 = 0 → (247 - 1) mod 256 = 255).
Proof. apply (push_effect two_registers 0 247 200 0); (reflexivity || by split). Defined.

Lemma pop_effect_witness :
  (∀ x, py_getitem (ram two_registers) 247 = Some x →
        CPU.pop 0 two_registers
        = Ok tt (with_reg (<[7%nat := (247 + 1) mod 256]>
                             (<[0%nat := x]> (reg two_registers)))
                   two_registers))
  ∧ (py_getitem (ram two_registers) 247 = None →
     CPU.pop 0 two_registers = Raise IndexError two_registers)
  ∧ (py_getitem (ram two_registers) 247 = None ↔ ¬ (-256 ≤ 247 ≤ 255))
  ∧ (0 ≤ 247 ≤ 255
     → py_getitem (ram two_registers) 247 = ram two_registers !! Z.to_nat 247)
  ∧ (-256 ≤ 247 < 0
     → py_getitem (ram two_registers) 247
       = ram two_registers !! Z.to_nat (256 + 247))
  ∧ (247 = 255 → (247 + 1) mod 256 = 0).
Proof.
  apply (pop_effect two_registers 0 247 0);
    try reflexivity; try lia; by split.
Defined.

Lemma call_effect_witness :
  CPU.call 0 two_registers
  = Ok tt (with_pc 200
            (with_ram (<[Z.to_nat ((247 - 1) mod 256) := pc two_registers + 2]>
                         (ram two_registers))
               (with_reg (<[7%nat := (247 - 1) mod 256]> (reg two_registers))
                  two_registers))).
Proof. apply (call_effect two_registers 0 247 200 0); (reflexivity || by split). Defined.

Lemma ret_effect_witness :
  (∀ x, py_getitem (ram two_registers) 247 = Some x →
        CPU.ret two_registers
        = Ok tt (with_reg (<[7%nat := (247 + 1) mod 256]> (reg two_registers))
                   (with_pc x two_registers)))
  ∧ (py_getitem (ram two_registers) 247 = None →
     CPU.ret two_registers = Raise IndexError two_registers)
  ∧ (py_getitem (ram two_registers) 247 = None ↔ ¬ (-256 ≤ 247 ≤ 255))
  ∧ (0 ≤ 247 ≤ 255
     → py_getitem (ram two_registers) 247 = ram two_registers !! Z.to_nat 247)
  ∧ (-256 ≤ 247 < 0
     → py_getitem (ram two_registers) 247
       = ram two_registers !! Z.to_nat (256 + 247)).
Proof.
  apply (ret_effect two_registers 247); try reflexivity; by split.
Defined.

Lemma run_pc_outside_memory_witness :
  run 10 (with_pc 256 init) = Some (IndexError, with_pc 256 init).
Proof.
  apply run_pc_outside_memory. intros [_ H]. vm_compute in H. discriminate H.
Defined.
